(** * itk::MaxPhaseCorrelationOptimizer::ComputeOffset

    A shallow embedding of [itkMaxPhaseCorrelationOptimizer.hxx] and the
    properties of its stages: bias field, zero-shift suppression, request to
    the maxima calculator, candidate selection, peak merging, sub-pixel
    interpolation and offset resolution.

    Numbers are modelled as the program has them:
    - [double] is IEEE binary64, Rocq's primitive [float];
    - [IndexValueType] is a signed and [SizeValueType] an unsigned 64-bit
      integer, carried in [Z] with the wrap-around written out;
    - the functions of the C math library ([std::exp], [std::log], ...) are
      outside the repository: the development is parametric in them
      ([CMath]), and [RefMath] gives one instance for running examples. *)

From Stdlib Require Import ZArith List Bool Lia Permutation.
From Stdlib Require Import Floats.
Import ListNotations.

Open Scope Z_scope.

(** ** Machine integers *)

(** [SizeValueType] (unsigned long): values modulo 2^64. *)
Definition wrapU (z : Z) : Z := z mod 2 ^ 64.

(** [IndexValueType] (signed 64-bit): two's complement wrap-around. *)
Definition wrapS (z : Z) : Z := (z + 2 ^ 63) mod 2 ^ 64 - 2 ^ 63.

(** [unsigned] (32-bit). *)
Definition wrap32 (z : Z) : Z := z mod 2 ^ 32.

(** ** Doubles *)

(** Conversion of an integer to [double] (round to nearest even). *)
Definition Z2double (z : Z) : float :=
  SF2Prim (binary_normalize prec emax z 0 false).

(** Conversion of a [double] to [IndexValueType]: truncation toward zero.
    C++ leaves the conversion of NaN and infinities undefined; they are sent
    to 0 here. *)
Definition double2index (f : float) : Z :=
  match Prim2SF f with
  | S754_finite s m e =>
      let v := if 0 <=? e then Z.shiftl (Zpos m) e else Z.shiftr (Zpos m) (- e) in
      wrapS (if s then - v else v)
  | _ => 0
  end.

(** [std::min(a, b)] is [(b < a) ? b : a]; [std::max(a, b)] is
    [(a < b) ? b : a]. *)
Definition std_min (a b : float) : float := if PrimFloat.ltb b a then b else a.
Definition std_max (a b : float) : float := if PrimFloat.ltb a b then b else a.

(** [std::ceil]: the least integer-valued double that is not below [f]. *)
Definition std_ceil (f : float) : float :=
  match Prim2SF f with
  | S754_finite s m e =>
      if 0 <=? e then f
      else
        let t := Z.shiftr (Zpos m) (- e) in
        if Z.shiftl t (- e) =? Zpos m then f
        else if s then (if t =? 0 then neg_zero else Z2double (- t))
        else Z2double (t + 1)
  | _ => f
  end.

(** Conversion of a [double] to [SizeValueType] (truncation). *)
Definition double2size (f : float) : Z :=
  match Prim2SF f with
  | S754_finite false m e =>
      wrapU (if 0 <=? e then Z.shiftl (Zpos m) e else Z.shiftr (Zpos m) (- e))
  | _ => 0
  end.

(** [std::numeric_limits<double>::epsilon()], [itk::Math::one_over_pi] and
    the literal [0.9], as the doubles they denote. *)
Definition epsilon : float := Eval vm_compute in Z.ldexp 1 (-52).
Definition one_over_pi : float := 0x1.45f306dc9c883p-2%float.
Definition point_nine : float := 0x1.ccccccccccccdp-1%float.

(** The C math library, as far as [ComputeOffset] calls it. *)
Class CMath : Type := {
  exp : float -> float;
  log : float -> float;
  acos : float -> float;
  atan : float -> float;
  sin : float -> float
}.

(** One instance of [CMath], by truncated series, to run examples with.
    The results agree with a C library to about ten digits on the arguments
    used below; nothing proved for every [CMath] depends on it. *)
Module RefMath.

Fixpoint horner (coeff : nat -> float) (n : nat) (k : nat) (x : float) : float :=
  match n with
  | O => coeff k
  | S n' => (coeff k + x * horner coeff n' (S k) x)%float
  end.

Fixpoint fact (n : nat) : float :=
  match n with
  | O => 1%float
  | S n' => (Z2double (Z.of_nat n) * fact n')%float
  end.

Fixpoint repeat_square (n : nat) (x : float) : float :=
  match n with
  | O => x
  | S n' => repeat_square n' (x * x)%float
  end.

(** e^x = (e^(x/1024))^1024, the inner exponential by its Taylor series. *)
Definition exp (x : float) : float :=
  repeat_square 10 (horner (fun k => (1 / fact k)%float) 24 0 (x / 1024)%float).

(** atanh-series of ln on the mantissa, plus exponent times ln 2. *)
Definition ln2 : float := 0x1.62e42fefa39efp-1%float.

Definition log (x : float) : float :=
  if PrimFloat.ltb 0 x then
    let (m, e) := Z.frexp x in
    let t := ((m - 1) / (m + 1))%float in
    (2 * t * horner (fun k => (1 / Z2double (2 * Z.of_nat k + 1))%float) 40 0 (t * t)
     + Z2double e * ln2)%float
  else if PrimFloat.eqb x 0 then neg_infinity else nan.

Definition sin (x : float) : float :=
  (x * horner (fun k => ((if Nat.even k then 1 else -1) / fact (2 * k + 1)))%float
         20 0 (x * x))%float.

Definition atan_series (x : float) : float :=
  (x * horner (fun k => ((if Nat.even k then 1 else -1)
                         / Z2double (2 * Z.of_nat k + 1)))%float
         40 0 (x * x))%float.

Definition halve_arg (x : float) : float :=
  (x / (1 + sqrt (1 + x * x)))%float.

(** atan x = 8 atan (h (h (h x))) with h x = x / (1 + sqrt (1 + x^2)). *)
Definition atan (x : float) : float :=
  (8 * atan_series (halve_arg (halve_arg (halve_arg x))))%float.

Definition pi : float := 0x1.921fb54442d18p+1%float.

Definition acos (x : float) : float :=
  if PrimFloat.eqb x (-1) then pi
  else (2 * atan (sqrt ((1 - x) / (1 + x))))%float.

Definition ops : CMath := Build_CMath exp log acos atan sin.
End RefMath.

(** ** Images and optimizer state *)

(** [itk::Index], [itk::Size] (one integer per axis); [itk::Point],
    [itk::Vector], [itk::ContinuousIndex] (one double per axis). *)
Definition IndexType := list Z.
Definition SizeType := list Z.
Definition PointType := list float.
Definition OffsetType := list float.
Definition ContinuousIndexType := list float.

(** Component access [v[d]]. *)
Definition at_ (v : list Z) (d : nat) : Z := nth d v 0.
Definition fat (v : list float) (d : nat) : float := nth d v 0%float.

(** Component assignment [v[d] = x]. *)
Fixpoint set_at {A : Type} (v : list A) (d : nat) (x : A) : list A :=
  match v, d with
  | [], _ => []
  | _ :: v', O => x :: v'
  | y :: v', S d' => y :: set_at v' d' x
  end.

(** Modelled from the spec: the pixel type of the correlation surface
    ([TRegistrationMethod::RealImageType::PixelType], declared in a header
    that is not among the sources at hand) is "an N-dimensional grid of real
    scalars"; it is taken to be [double].  An image is its largest possible
    region (start index and size), its geometry and its pixels. *)
Record ImageType : Type := mkImage {
  GetIndex : IndexType;
  GetSize : SizeType;
  GetSpacing : list float;
  GetOrigin : PointType;
  GetPixel : IndexType -> float
}.

(** [PeakInterpolationMethod] of [MaxPhaseCorrelationOptimizerEnums]. *)
Module PeakInterpolationMethod.
Inductive t : Set := None | Parabolic | Cosine.
End PeakInterpolationMethod.
Abbreviation PeakInterpolationMethodEnum := PeakInterpolationMethod.t.

(** The members of the optimizer that [ComputeOffset] reads and writes.
    [m_Offsets] and [m_Confidences] belong to the superclass; the length of
    [m_Offsets] on entry is the requested number of offsets.  [SetN_log]
    records the argument of every [SetN] followed by [ComputeMaxima] on
    [m_MaxCalculator], the latest first. *)
Record Optimizer : Type := mkOptimizer {
  m_Offsets : list OffsetType;
  m_Confidences : list float;
  m_PeakInterpolationMethod : PeakInterpolationMethodEnum;
  m_MergePeaks : Z;
  m_ZeroSuppression : float;
  m_PixelDistanceTolerance : Z;
  SetN_log : list Z
}.

(** What [NMinimaMaximaImageCalculator::ComputeMaxima] leaves behind: the
    maxima and their indices, or an exception. *)
Inductive MaximaResult : Type :=
| Maxima (maxima : list float) (indices : list IndexType)
| MaximaException.

(** The calculator itself is outside the repository: a function of the image
    and of the requested number of maxima. *)
Definition MaxCalculatorType := ImageType -> Z -> MaximaResult.

(** How a call of [ComputeOffset] ends. *)
Inductive Outcome : Type :=
| Returned (o : Optimizer)
| Thrown (o : Optimizer).

Section ComputeOffset.

(** Template parameter [ImageDimension]; whether the build defines
    [NDEBUG]; the C math library. *)
Variable ImageDimension : nat.
Variable NDEBUG : bool.
Context {libm : CMath}.

(** [for (unsigned d = 0; d < ImageDimension; d++)] *)
Definition axes : list nat := seq 0 ImageDimension.

(** *** Bias field (lines 95-160) *)

Definition adjustedSize (size : SizeType) (oIndex : IndexType) : IndexType :=
  map (fun d => wrapS (at_ size d + at_ oIndex d)) axes.

Definition imageSize2 (size : SizeType) (oIndex : IndexType) : float :=
  fold_left
    (fun acc d =>
       let a := at_ (adjustedSize size oIndex) d in
       (acc + Z2double (wrapS (a * a)))%float)
    axes 0%float.

Definition directExpectedIndex
    (movingOrigin fixedOrigin : PointType) (spacing : list float)
    (oIndex : IndexType) : IndexType :=
  map (fun d =>
         double2index ((fat movingOrigin d - fat fixedOrigin d) / fat spacing d
                       + Z2double (at_ oIndex d))%float)
      axes.

Definition mirrorExpectedIndex
    (movingOrigin fixedOrigin : PointType) (spacing : list float)
    (size : SizeType) (oIndex : IndexType) : IndexType :=
  map (fun d =>
         double2index ((fat movingOrigin d - fat fixedOrigin d) / fat spacing d
                       + Z2double (at_ (adjustedSize size oIndex) d))%float)
      axes.

Definition distancePenaltyFactor (tolerance : Z) (size : SizeType)
    (oIndex : IndexType) : float :=
  if tolerance =? 0 then (-10 / imageSize2 size oIndex)%float
  else (log point_nine / Z2double (wrapU (tolerance * tolerance)))%float.

(** [100 * m_PixelDistanceTolerance * m_PixelDistanceTolerance], computed
    in [SizeValueType] and stored in an [IndexValueType]. *)
Definition zeroDist2 (tolerance : Z) : Z :=
  wrapS (wrapU (wrapU (100 * tolerance) * tolerance)).

(** The inner loop over the axes (lines 128-141). *)
Definition sample_dist (direct mirror ind : IndexType) : Z :=
  fold_left
    (fun dist d =>
       let distDirect :=
         wrapS (wrapS (at_ direct d - at_ ind d) * wrapS (at_ direct d - at_ ind d)) in
       let distMirror :=
         wrapS (wrapS (at_ mirror d - at_ ind d) * wrapS (at_ mirror d - at_ ind d)) in
       if distDirect <=? distMirror then wrapS (dist + distDirect)
       else wrapS (dist + distMirror))
    axes 0.

(** The value stored in [iAdjusted] for one sample (lines 143-157). *)
Definition bias_pixel (tolerance : Z) (factor : float) (dist : Z)
    (in_pixel : float) : float :=
  if (0 <? tolerance) && (zeroDist2 tolerance <? dist) then 0%float
  else
    let pixel := (in_pixel * exp (factor * Z2double dist))%float in
    if NDEBUG then pixel else (pixel * 1000)%float.

Definition BiasField (tolerance : Z) (input fixed moving : ImageType)
    : ImageType :=
  let size := GetSize input in
  let oIndex := GetIndex input in
  let direct :=
    directExpectedIndex (GetOrigin moving) (GetOrigin fixed) (GetSpacing fixed) oIndex in
  let mirror :=
    mirrorExpectedIndex (GetOrigin moving) (GetOrigin fixed) (GetSpacing fixed)
                        size oIndex in
  let factor := distancePenaltyFactor tolerance size oIndex in
  mkImage oIndex size (GetSpacing input) (GetOrigin input)
    (fun ind =>
       bias_pixel tolerance factor (sample_dist direct mirror ind)
                  (GetPixel input ind)).

(** *** Zero-shift suppression (lines 164-214) *)

Definition znSize : Z := 4.

(** City-block distance to the start index, with wrap-around
    (lines 176-185). *)
Definition zero_dist (size : SizeType) (oIndex ind : IndexType) : Z :=
  fold_left
    (fun dist d =>
       let distD := wrapS (at_ ind d - at_ oIndex d) in
       let distD :=
         if wrapS (at_ size d / 2) <? distD
         then wrapS (wrapU (at_ size d - distD))
         else distD in
       wrapS (dist + distD))
    axes 0.

(** Lines 193-199: is one of the indices "zero"? *)
Definition on_zero_line (oIndex ind : IndexType) : bool :=
  fold_left
    (fun pixelValid d => if at_ ind d =? at_ oIndex d then true else pixelValid)
    axes false.

Definition pixelValid (size : SizeType) (oIndex ind : IndexType) : bool :=
  if zero_dist size oIndex ind <? znSize then true
  else on_zero_line oIndex ind.

Definition suppress_pixel (zeroSuppression : float) (size : SizeType)
    (oIndex ind : IndexType) (pixel : float) : float :=
  let dist := zero_dist size oIndex ind in
  if pixelValid size oIndex ind then
    (pixel * (Z2double (wrapS (dist + 10))
              / (zeroSuppression + Z2double dist + 10)))%float
  else pixel.

Definition ZeroSuppress (zeroSuppression : float) (iAdjusted : ImageType)
    : ImageType :=
  if PrimFloat.ltb 0 zeroSuppression then
    mkImage (GetIndex iAdjusted) (GetSize iAdjusted)
      (GetSpacing iAdjusted) (GetOrigin iAdjusted)
      (fun ind =>
         suppress_pixel zeroSuppression (GetSize iAdjusted) (GetIndex iAdjusted)
                        ind (GetPixel iAdjusted ind))
  else iAdjusted.

(** *** Number of maxima requested (lines 217-225)

    [this->m_Offsets.size() / 2] is a division of unsigned integers; its
    quotient is what [std::ceil] receives.  [std::pow(3, ImageDimension)]
    is exact for every dimension whose power fits an [unsigned]. *)
Definition requested_maxima (mergePeaks : Z) (offsets_size : Z) : Z :=
  if mergePeaks =? 0 then offsets_size
  else
    double2size
      (std_ceil (Z2double (offsets_size / 2))
       * Z2double (wrap32 (wrap32 (3 ^ Z.of_nat ImageDimension) - 1)))%float.

(** *** Candidate selection (lines 241-248) *)

(** [std::upper_bound(first, last, value, comp)], the usual binary search;
    [comp_value e] is [comp(value, e)].  [len] halves at every step, so
    [fuel = len] is enough ([upper_bound_loop_fuel]). *)
Fixpoint upper_bound_loop (comp_value : float -> bool) (v : list float)
    (fuel first len : nat) : nat :=
  match fuel with
  | O => first
  | S fuel' =>
      if (len =? 0)%nat then first
      else
        let half := (len / 2)%nat in
        let middle := (first + half)%nat in
        if comp_value (nth middle v 0%float)
        then upper_bound_loop comp_value v fuel' first half
        else upper_bound_loop comp_value v fuel' (middle + 1)%nat (len - half - 1)%nat
  end.

Definition upper_bound (comp_value : float -> bool) (v : list float) : nat :=
  upper_bound_loop comp_value v (length v) 0%nat (length v).

(** [compGreater(0.0, e)], that is [0.0 > e]. *)
Definition compGreater_zero (e : float) : bool := PrimFloat.ltb e 0.

(** [std::vector::resize]. *)
Definition resize {A : Type} (n : nat) (dflt : A) (v : list A) : list A :=
  firstn n v ++ repeat dflt (n - length v).

Definition zeroIndex : IndexType := repeat 0 ImageDimension.
Definition zeroOffset : OffsetType := repeat 0%float ImageDimension.

Definition select_candidates (confidences : list float) (indices : list IndexType)
    : list float * list IndexType :=
  let zeroBound := upper_bound compGreater_zero confidences in
  if (zeroBound <? length confidences)%nat
  then (resize zeroBound 0%float confidences, resize zeroBound zeroIndex indices)
  else (confidences, indices).

(** *** Peak merging (lines 250-309) *)

(** Maximum over the axes of the wrapped index difference (lines 259-268). *)
Definition peak_dist (size : SizeType) (a b : IndexType) : Z :=
  fold_left
    (fun dist d =>
       let d1 := wrapU (Z.abs (wrapS (at_ a d - at_ b d))) in
       let d1 := if at_ size d / 2 <? d1 then wrapU (at_ size d - d1) else d1 in
       Z.max dist d1)
    axes 0.

(** The inner [while (k < i)]: [n] counts the candidates still to be
    compared, [n = i - k]. *)
Fixpoint scan_earlier (mergePeaks : Z) (size : SizeType) (indices : list IndexType)
    (i : nat) (n k : nat) : nat :=
  match n with
  | O => k
  | S n' =>
      if peak_dist size (nth i indices []) (nth k indices []) <=? mergePeaks
      then k
      else scan_earlier mergePeaks size indices i n' (S k)
  end.

(** [std::vector::erase] of one element. *)
Definition erase {A : Type} (i : nat) (v : list A) : list A :=
  firstn i v ++ skipn (S i) v.

(** The outer [while (i < indices.size())].  Every iteration either erases
    an element or advances [i], so [indices.size() - i] iterations are
    enough ([merge_loop_done]). *)
Fixpoint merge_loop (mergePeaks : Z) (size : SizeType) (fuel i : nat)
    (confidences : list float) (indices : list IndexType)
    : nat * (list float * list IndexType) :=
  match fuel with
  | O => (i, (confidences, indices))
  | S fuel' =>
      if (i <? length indices)%nat then
        let k := scan_earlier mergePeaks size indices i i 0%nat in
        if (k <? i)%nat then
          let joined := (fat confidences k + fat confidences i)%float in
          merge_loop mergePeaks size fuel' i
                     (erase i (set_at confidences k joined)) (erase i indices)
        else merge_loop mergePeaks size fuel' (S i) confidences indices
      else (i, (confidences, indices))
  end.

(** [std::sort] of the positions by descending confidence.  The standard
    leaves the order of equal keys open; this insertion sort keeps it. *)
Fixpoint insert_desc (confidences : list float) (a : nat) (l : list nat) : list nat :=
  match l with
  | [] => [a]
  | b :: l' =>
      if PrimFloat.ltb (fat confidences b) (fat confidences a)
      then a :: l
      else b :: insert_desc confidences a l'
  end.

Definition sort_desc (confidences : list float) (sIndices : list nat) : list nat :=
  fold_left (fun sorted a => insert_desc confidences a sorted) sIndices [].

Definition merge_peaks (mergePeaks : Z) (size : SizeType)
    (confidences : list float) (indices : list IndexType)
    : list float * list IndexType :=
  if 0 <? mergePeaks then
    let '(_, (confidences, indices)) :=
      merge_loop mergePeaks size (length indices) 1%nat confidences indices in
    let sIndices := sort_desc confidences (seq 0 (length confidences)) in
    (map (fun a => fat confidences a) sIndices,
     map (fun a => nth a indices zeroIndex) sIndices)
  else (confidences, indices).

(** *** Sub-pixel interpolation (lines 328-373) *)

(** [ImageRegion::IsInside] of the ITK library. *)
Definition IsInside (oIndex : IndexType) (size : SizeType) (ind : IndexType) : bool :=
  forallb
    (fun d => (at_ oIndex d <=? at_ ind d)
              && (at_ ind d <? wrapS (at_ oIndex d + at_ size d)))
    axes.

Definition parabolic (y0 y1 y2 : float) : float :=
  ((y0 - y2) / (2 * (y0 - 2 * y1 + y2)))%float.

Definition cosine (m : nat) (y0 y1 y2 : float) : float :=
  let ratio := ((y0 + y2) / (2 * y1))%float in
  let ratio :=
    if (0 <? m)%nat
    then std_max (std_min ratio (1 - epsilon)%float) (-1 + epsilon)%float
    else ratio in
  let omega := acos ratio in
  let theta := atan ((y0 - y2) / (2 * y1 * sin omega))%float in
  (one_over_pi * theta / omega)%float.

(** One pass of the loop over the axes, on [maxIndex] and [tempIndex]. *)
Definition interpolate_axis (method : PeakInterpolationMethodEnum) (m : nat)
    (y1 : float) (iAdjusted : ImageType)
    (st : ContinuousIndexType * IndexType) (i : nat)
    : ContinuousIndexType * IndexType :=
  let '(maxIndex, tempIndex) := st in
  let oIndex := GetIndex iAdjusted in
  let size := GetSize iAdjusted in
  let restored := set_at tempIndex i (double2index (fat maxIndex i)) in
  let tempIndex0 := set_at tempIndex i (double2index (fat maxIndex i - 1)%float) in
  if negb (IsInside oIndex size tempIndex0) then (maxIndex, restored)
  else
    let y0 := GetPixel iAdjusted tempIndex0 in
    let tempIndex2 := set_at tempIndex0 i (double2index (fat maxIndex i + 1)%float) in
    if negb (IsInside oIndex size tempIndex2) then (maxIndex, restored)
    else
      let y2 := GetPixel iAdjusted tempIndex2 in
      match method with
      | PeakInterpolationMethod.Parabolic =>
          (set_at maxIndex i (fat maxIndex i + parabolic y0 y1 y2)%float, restored)
      | PeakInterpolationMethod.Cosine =>
          (set_at maxIndex i (fat maxIndex i - cosine m y0 y1 y2)%float, restored)
      | PeakInterpolationMethod.None => (maxIndex, restored)
      end.

Definition interpolate_peak (method : PeakInterpolationMethodEnum) (m : nat)
    (y1 : float) (iAdjusted : ImageType) (index : IndexType)
    : ContinuousIndexType :=
  let maxIndex := map Z2double index in
  match method with
  | PeakInterpolationMethod.None => maxIndex
  | _ => fst (fold_left (interpolate_axis method m y1 iAdjusted) axes (maxIndex, index))
  end.

(** *** Offset resolution (lines 375-388) *)

(** [(movingOrigin[i] - fixedOrigin[i]) - 1 * spacing[i] * (maxIndex[i] - r)],
    with [r] the start index for the direct and the adjusted size for the
    mirror offset. *)
Definition candidate_offset (movingOrigin fixedOrigin spacing maxIndex r : float)
    : float :=
  ((movingOrigin - fixedOrigin) - 1 * spacing * (maxIndex - r))%float.

Definition directOffset (fixed moving : ImageType) (oIndex : IndexType)
    (maxIndex : ContinuousIndexType) (i : nat) : float :=
  candidate_offset (fat (GetOrigin moving) i) (fat (GetOrigin fixed) i)
                   (fat (GetSpacing fixed) i) (fat maxIndex i)
                   (Z2double (at_ oIndex i)).

Definition mirrorOffset (fixed moving : ImageType) (size : SizeType)
    (oIndex : IndexType) (maxIndex : ContinuousIndexType) (i : nat) : float :=
  candidate_offset (fat (GetOrigin moving) i) (fat (GetOrigin fixed) i)
                   (fat (GetSpacing fixed) i) (fat maxIndex i)
                   (Z2double (at_ (adjustedSize size oIndex) i)).

Definition resolve_axis (direct mirror : float) : float :=
  if PrimFloat.leb (abs direct) (abs mirror) then direct else mirror.

Definition resolve_offset (fixed moving : ImageType) (size : SizeType)
    (oIndex : IndexType) (maxIndex : ContinuousIndexType) : OffsetType :=
  map (fun i =>
         resolve_axis (directOffset fixed moving oIndex maxIndex i)
                      (mirrorOffset fixed moving size oIndex maxIndex i))
      axes.

(** *** The whole of [ComputeOffset] *)

(** Modelled from the spec: [SetOffsetCount] of the superclass
    [PhaseCorrelationOptimizer], which is not in this part of the
    repository; it shrinks the requested output count to the given one. *)
Definition SetOffsetCount (count : nat) (offsets : list OffsetType)
    : list OffsetType :=
  resize count zeroOffset offsets.

(** Lines 311-319. *)
Definition truncate_candidates (offsets : list OffsetType)
    (confidences : list float) (indices : list IndexType)
    : list OffsetType * (list float * list IndexType) :=
  if (length confidences <? length offsets)%nat
  then (SetOffsetCount (length confidences) offsets, (confidences, indices))
  else (offsets,
        (resize (length offsets) 0%float confidences,
         resize (length offsets) zeroIndex indices)).

(** The offset of candidate [m] (lines 325-388). *)
Definition peak_offset (method : PeakInterpolationMethodEnum)
    (iAdjusted fixed moving : ImageType)
    (confidences : list float) (indices : list IndexType) (m : nat) : OffsetType :=
  let maxIndex :=
    interpolate_peak method m (fat confidences m) iAdjusted (nth m indices zeroIndex) in
  resolve_offset fixed moving (GetSize iAdjusted) (GetIndex iAdjusted) maxIndex.

(** The loop over the candidates (lines 323-396), on [m_Offsets] and
    [m_Confidences]. *)
Definition offsets_loop (method : PeakInterpolationMethodEnum)
    (iAdjusted fixed moving : ImageType) (indices : list IndexType)
    (offsets : list OffsetType) (confidences : list float)
    : list OffsetType * list float :=
  fold_left
    (fun '(offsets, confidences) m =>
       let offset := peak_offset method iAdjusted fixed moving confidences indices m in
       let confidences :=
         if NDEBUG
         then set_at confidences m (fat confidences m * 1000)%float
         else confidences in
       (set_at offsets m offset, confidences))
    (seq 0 (length confidences)) (offsets, confidences).

(** [iAdjusted] as handed to the maxima calculator (lines 86-214). *)
Definition AdjustedSurface (o : Optimizer) (input fixed moving : ImageType)
    : ImageType :=
  ZeroSuppress (m_ZeroSuppression o)
               (BiasField (m_PixelDistanceTolerance o) input fixed moving).

(** Lines 237-396, on the maxima the calculator returned. *)
Definition from_maxima (o : Optimizer) (iAdjusted fixed moving : ImageType)
    (maxima : list float) (indices : list IndexType)
    : list OffsetType * list float :=
  let '(confidences, indices) := select_candidates maxima indices in
  let '(confidences, indices) :=
    merge_peaks (m_MergePeaks o) (GetSize iAdjusted) confidences indices in
  let '(offsets, (confidences, indices)) :=
    truncate_candidates (m_Offsets o) confidences indices in
  offsets_loop (m_PeakInterpolationMethod o) iAdjusted fixed moving indices
               offsets confidences.

Definition set_results (o : Optimizer) (offsets : list OffsetType)
    (confidences : list float) (log : list Z) : Optimizer :=
  mkOptimizer offsets confidences (m_PeakInterpolationMethod o) (m_MergePeaks o)
              (m_ZeroSuppression o) (m_PixelDistanceTolerance o) log.

(** [itkAssertOrThrowMacro] of line 239 is a macro of the ITK library, not of
    these sources; its failure is taken as a throw. *)
Definition ComputeOffset (MaxCalculator : MaxCalculatorType)
    (input : option ImageType) (fixed moving : ImageType) (o : Optimizer)
    : Outcome :=
  match input with
  | None => Returned o
  | Some input =>
      let iAdjusted := AdjustedSurface o input fixed moving in
      let N := requested_maxima (m_MergePeaks o) (Z.of_nat (length (m_Offsets o))) in
      let log := N :: SetN_log o in
      match MaxCalculator iAdjusted N with
      | MaximaException => Thrown (set_results o (m_Offsets o) (m_Confidences o) log)
      | Maxima maxima indices =>
          if negb (length maxima =? length indices)%nat
          then Thrown (set_results o (m_Offsets o) maxima log)
          else
            let '(offsets, confidences) :=
              from_maxima o iAdjusted fixed moving maxima indices in
            Returned (set_results o offsets confidences log)
      end
  end.

End ComputeOffset.

Arguments ComputeOffset ImageDimension NDEBUG {libm} MaxCalculator input fixed moving o.

(** The state the call leaves, however it ends. *)
Definition outcome_state (r : Outcome) : Optimizer :=
  match r with
  | Returned o => o
  | Thrown o => o
  end.

(** The candidates that reach the truncation of lines 311-319. *)
Definition survivors (ImageDimension : nat) (o : Optimizer) (size : SizeType)
    (maxima : list float) (indices : list IndexType) : list float * list IndexType :=
  merge_peaks ImageDimension (m_MergePeaks o) size
              (fst (select_candidates ImageDimension maxima indices))
              (snd (select_candidates ImageDimension maxima indices)).

(** ** What the specification says, in its own words *)

(** "K = ceil(requestedOffsetCount/2) * (3^N - 1)" *)
Definition spec_requested_maxima (ImageDimension : nat) (requestedOffsetCount : Z) : Z :=
  ((requestedOffsetCount + 1) / 2) * (3 ^ Z.of_nat ImageDimension - 1).

(** "d² the minimum, over axes, of squared distance from the sample's index
    to whichever of two reference indices is closer" *)
Definition spec_axis_min_dist (direct mirror ind : IndexType) : Z :=
  match
    map (fun d => Z.min ((at_ direct d - at_ ind d) * (at_ direct d - at_ ind d))
                        ((at_ mirror d - at_ ind d) * (at_ mirror d - at_ ind d)))
        (seq 0 (length ind))
  with
  | [] => 0
  | x :: l => fold_left Z.min l x
  end.

(** The sum over the axes that the code accumulates, without wrap-around. *)
Fixpoint axis_sum (f : nat -> Z) (l : list nat) : Z :=
  match l with
  | [] => 0
  | d :: l' => f d + axis_sum f l'
  end.

Definition closer_dist2 (direct mirror ind : IndexType) (d : nat) : Z :=
  Z.min ((at_ direct d - at_ ind d) * (at_ direct d - at_ ind d))
        ((at_ mirror d - at_ ind d) * (at_ mirror d - at_ ind d)).

(** Per axis: the index difference to the start index, or the size minus it
    when it exceeds half the size. *)
Definition wrapped_diff (size : SizeType) (oIndex ind : IndexType) (d : nat) : Z :=
  let r := at_ ind d - at_ oIndex d in
  if at_ size d / 2 <? r then at_ size d - r else r.

(** "number of positive-confidence merged candidates" *)
Definition count_positive (confidences : list float) : nat :=
  length (filter (fun c => PrimFloat.ltb 0 c) confidences).

(** ** Examples to run the model on *)

(** A one-dimensional surface of unit spacing starting at index 0. *)
Definition surface1 (samples : list float) : ImageType :=
  mkImage [0] [Z.of_nat (length samples)] [1%float] [0%float]
          (fun ind => nth (Z.to_nat (at_ ind 0)) samples 0%float).

(** A two-dimensional surface of constant value. *)
Definition flat2 (nx ny : Z) (v : float) : ImageType :=
  mkImage [0; 0] [nx; ny] [1%float; 1%float] [0%float; 0%float] (fun _ => v).

(** Eight samples with one peak, and the surface 0 3 5 0 0 0 0 0. *)
Definition gentle_surface : ImageType :=
  surface1 [1; 2; 5; 2; 1; 1; 1; 1]%float.
Definition two_peak_surface : ImageType :=
  surface1 [0; 3; 5; 0; 0; 0; 0; 0]%float.

(** Optimizers asked for two or three offsets: without merging, zero
    suppression and interpolation, and with merge distance 1 and Parabolic
    interpolation. *)
Definition two_plain_offsets : Optimizer :=
  mkOptimizer [[0%float]; [0%float]] [] PeakInterpolationMethod.None 0 0 0 [].
Definition three_plain_offsets : Optimizer :=
  mkOptimizer [[0%float]; [0%float]; [0%float]] []
              PeakInterpolationMethod.None 0 0 0 [].
Definition two_merging_offsets : Optimizer :=
  mkOptimizer [[0%float]; [0%float]] [] PeakInterpolationMethod.Parabolic 1 5 0 [].
Definition two_merging_offsets_cosine : Optimizer :=
  mkOptimizer [[0%float]; [0%float]] [] PeakInterpolationMethod.Cosine 1 5 0 [].

(** A plateau: eight samples of value 1; and an optimizer asked for one
    offset, Parabolic interpolation, no merging. *)
Definition plateau_surface : ImageType := surface1 (repeat 1%float 8).
Definition one_parabolic_offset : Optimizer :=
  mkOptimizer [[0%float]] [] PeakInterpolationMethod.Parabolic 0 0 0 [].

(** An optimizer that still holds the result of an earlier call. *)
Definition stale_optimizer : Optimizer :=
  mkOptimizer [[1.5%float; (-2)%float]] [7%float]
              PeakInterpolationMethod.Parabolic 1 5 0 [].

(** A maxima calculator that answers with the given lists. *)
Definition answering (maxima : list float) (indices : list IndexType)
    : MaxCalculatorType :=
  fun _ _ => Maxima maxima indices.

(** ** Notions used to state what the stages keep *)

(** Every candidate before position [n] is farther than the merge distance
    from every candidate that precedes it. *)
Definition separated (ImageDimension : nat) (mergePeaks : Z) (size : SizeType)
    (indices : list IndexType) (n : nat) : Prop :=
  forall j k, (k < j)%nat -> (j < n)%nat -> (j < length indices)%nat ->
    mergePeaks < peak_dist ImageDimension size (nth j indices []) (nth k indices []).

(** The candidates the loop over the candidates visits: what selection,
    merging and truncation leave of the calculator's answer. *)
Definition retained (ImageDimension : nat) (o : Optimizer) (size : SizeType)
    (maxima : list float) (indices : list IndexType) : list float * list IndexType :=
  snd (truncate_candidates ImageDimension (m_Offsets o)
         (fst (survivors ImageDimension o size maxima indices))
         (snd (survivors ImageDimension o size maxima indices))).

(** The rescaling of line 392, done when [NDEBUG] is defined. *)
Definition rescaled (NDEBUG : bool) (confidence : float) : float :=
  if NDEBUG then (confidence * 1000)%float else confidence.

(** ** The test driver (itkMontagePCMTestFiles.cxx) *)

(** [PhaseCorrelationImageRegistrationMethod::PaddingMethodEnum], in the
    order of the loop of line 90. *)
Inductive PaddingMethod : Set := Zero | Mirror | MirrorWithExponentialDecay.

(** One pass of the loop over the padding methods, as far as the
    registration method and the writer (both outside this file) decide it:
    the two parameter vectors, or an exception. *)
Inductive PaddingRun : Type :=
| RunParameters (finalParameters transformParameters : list float)
| RunException.

(** What the driver gets from outside: the numeric arguments [argv[4]],
    [argv[5]], ... as [std::stod] reads them, the number of dimensions the
    image reader reports (or an exception), whether the moving image could
    be read, its spacing, and the registration under each padding method. *)
Record TestFiles : Type := mkTestFiles {
  numeric_args : list float;
  numDimensions : option Z;
  movingImage_Update : bool;
  moving_spacing : list float;
  padding_run : PaddingMethod -> PaddingRun
}.

Definition tolerance : float := 1%float.

(** Lines 118-119: is component [ii] of either parameter vector farther
    than [tolerance * spacing[ii]] from the actual one,
    [argv[4 + VDimension + ii]]? *)
Definition exceeds_tolerance (VDimension : nat) (t : TestFiles)
    (finalParameters transformParameters : list float) (ii : nat) : bool :=
  let actual := fat (numeric_args t) (VDimension + ii) in
  PrimFloat.ltb (tolerance * fat (moving_spacing t) ii)
                (abs (fat finalParameters ii - actual))
  || PrimFloat.ltb (tolerance * fat (moving_spacing t) ii)
                   (abs (fat transformParameters ii - actual)).

(** Lines 100-124: the comparison of the parameters of one run with the
    actual ones. *)
Definition validate_parameters (VDimension : nat) (t : TestFiles)
    (finalParameters transformParameters : list float) (pass : bool) : bool :=
  fold_left
    (fun pass ii =>
       if exceeds_tolerance VDimension t finalParameters transformParameters ii
       then false
       else pass)
    (seq 0 (length finalParameters)) pass.

(** ** Facts about the scalars *)

Lemma wrapS_small (z : Z) : - 2 ^ 63 <= z < 2 ^ 63 -> wrapS z = z.
Proof.
  intros H. unfold wrapS.
  rewrite Z.mod_small; lia.
Qed.

Lemma wrapU_small (z : Z) : 0 <= z < 2 ^ 64 -> wrapU z = z.
Proof.
  intros H. unfold wrapU. apply Z.mod_small. exact H.
Qed.

Lemma float_eqb_leb (x y : float) :
  PrimFloat.eqb x y = true -> PrimFloat.leb x y = true.
Proof.
  rewrite eqb_spec, leb_spec. unfold SFeqb, SFleb.
  destruct (SFcompare (Prim2SF x) (Prim2SF y)) as [[ | | ] | ]; congruence.
Qed.

(** ** Facts about the loops over the axes *)

Lemma nth_map_seq {A : Type} (f : nat -> A) (n i : nat) (dflt : A) :
  (i < n)%nat -> nth i (map f (seq 0 n)) dflt = f i.
Proof.
  intros H.
  rewrite (nth_indep _ dflt (f 0%nat)) by (rewrite length_map, length_seq; exact H).
  rewrite (map_nth f (seq 0 n) 0%nat i), seq_nth by exact H.
  reflexivity.
Qed.

Lemma on_zero_line_fold (oIndex ind : IndexType) (l : list nat) (b : bool) :
  fold_left (fun pixelValid d => if at_ ind d =? at_ oIndex d then true else pixelValid)
            l b
  = b || existsb (fun d => at_ ind d =? at_ oIndex d) l.
Proof.
  revert b. induction l as [ | d l IH]; intros b; simpl.
  - now rewrite orb_false_r.
  - rewrite IH. destruct (at_ ind d =? at_ oIndex d), b; reflexivity.
Qed.

(** The second loop of the zero-shift suppressor finds a "zero" coordinate
    exactly when some axis has one. *)
Lemma on_zero_line_spec (ImageDimension : nat) (oIndex ind : IndexType) :
  on_zero_line ImageDimension oIndex ind = true
  <-> exists d, (d < ImageDimension)%nat /\ at_ ind d = at_ oIndex d.
Proof.
  unfold on_zero_line, axes. rewrite on_zero_line_fold. simpl.
  rewrite existsb_exists. split.
  - intros (d & Hin & Heq). exists d. apply in_seq in Hin.
    split; [lia | now apply Z.eqb_eq].
  - intros (d & Hlt & Heq). exists d. split.
    + apply in_seq. lia.
    + now apply Z.eqb_eq.
Qed.

(** ** Offset resolution *)

(** C10.  On every axis, when the direct and the mirror offset have equal
    absolute value (they compare equal as doubles), the component of the
    offset vector is the direct offset, the one computed against the start
    index of the grid. *)
Theorem resolve_offset_tie_is_direct
    (ImageDimension : nat) (fixed moving : ImageType) (size : SizeType)
    (oIndex : IndexType) (maxIndex : ContinuousIndexType) (i : nat) :
  (i < ImageDimension)%nat ->
  PrimFloat.eqb (abs (directOffset fixed moving oIndex maxIndex i))
                (abs (mirrorOffset ImageDimension fixed moving size oIndex maxIndex i))
  = true ->
  fat (resolve_offset ImageDimension fixed moving size oIndex maxIndex) i
  = candidate_offset (fat (GetOrigin moving) i) (fat (GetOrigin fixed) i)
                     (fat (GetSpacing fixed) i) (fat maxIndex i)
                     (Z2double (at_ oIndex i)).
Proof.
  intros Hi Htie.
  unfold fat at 1. unfold resolve_offset, axes.
  rewrite nth_map_seq by exact Hi.
  unfold resolve_axis. rewrite (float_eqb_leb _ _ Htie).
  reflexivity.
Qed.

(** A grid of 10 samples from index 0, refined index 5: the direct offset
    is -5, the mirror offset +5, and -5 is returned. *)
Lemma resolve_offset_tie_is_direct_witness :
  fat (resolve_offset 1 (surface1 (repeat 0%float 10)) (surface1 (repeat 0%float 10))
                      [10] [0] [5%float]) 0
  = (-5)%float.
Proof.
  rewrite (resolve_offset_tie_is_direct 1 _ _ [10] [0] [5%float] 0).
  - vm_compute. reflexivity.
  - lia.
  - vm_compute. reflexivity.
Defined.

(** ** Zero-shift suppression *)

(** The suppressor in terms of [zero_dist], the distance its first loop
    accumulates: with aggressiveness [a > 0] the samples with [zero_dist]
    below [znSize], or with a coordinate equal to that of the start index,
    are multiplied by [(d + 10) / (a + d + 10)]; every other sample is left
    as it was; with [a = 0] no sample changes. *)
Lemma zero_suppression_spec
    (ImageDimension : nat) (a : float) (iAdjusted : ImageType) (ind : IndexType) :
  let d := zero_dist ImageDimension (GetSize iAdjusted) (GetIndex iAdjusted) ind in
  let near_zero :=
    d < 4 \/ exists k, (k < ImageDimension)%nat /\ at_ ind k = at_ (GetIndex iAdjusted) k in
  (PrimFloat.ltb 0 a = true -> near_zero ->
   GetPixel (ZeroSuppress ImageDimension a iAdjusted) ind
   = (GetPixel iAdjusted ind * (Z2double (wrapS (d + 10)) / (a + Z2double d + 10)))%float)
  /\ (PrimFloat.ltb 0 a = true -> ~ near_zero ->
      GetPixel (ZeroSuppress ImageDimension a iAdjusted) ind = GetPixel iAdjusted ind)
  /\ (a = 0%float -> ZeroSuppress ImageDimension a iAdjusted = iAdjusted).
Proof.
  intros d near_zero.
  assert (Hvalid :
    pixelValid ImageDimension (GetSize iAdjusted) (GetIndex iAdjusted) ind = true
    <-> near_zero).
  { unfold pixelValid, near_zero, znSize. fold d.
    destruct (Z.ltb_spec d 4) as [Hlt | Hge].
    - split; [intros _; now left | reflexivity].
    - rewrite on_zero_line_spec. split; [intros H; now right | intros [H | H]; [lia | exact H]]. }
  repeat split.
  - intros Ha Hnear. unfold ZeroSuppress. rewrite Ha. simpl.
    unfold suppress_pixel. fold d.
    apply Hvalid in Hnear. rewrite Hnear. reflexivity.
  - intros Ha Hfar. unfold ZeroSuppress. rewrite Ha. simpl.
    unfold suppress_pixel.
    destruct (pixelValid ImageDimension (GetSize iAdjusted) (GetIndex iAdjusted) ind) eqn:E.
    + exfalso. apply Hfar, Hvalid. reflexivity.
    + reflexivity.
  - intros ->. reflexivity.
Qed.

(** ** Missing input *)

(** C6, as the code has it.  Without a correlation surface the call returns
    at once and leaves the optimizer as it was: offsets and confidences are
    untouched, nothing is asked of the maxima calculator, nothing is
    thrown. *)
Theorem ComputeOffset_missing_input
    (ImageDimension : nat) (NDEBUG : bool) (libm : CMath)
    (MaxCalculator : MaxCalculatorType) (fixed moving : ImageType) (o : Optimizer) :
  ComputeOffset ImageDimension NDEBUG MaxCalculator None fixed moving o = Returned o.
Proof. reflexivity. Qed.

(** C6, as stated, fails: called without a surface on an optimizer that holds
    the offset (1.5, -2) of an earlier call, the estimator returns that
    offset, not a zero vector. *)
Lemma missing_input_keeps_earlier_offset :
  exists o',
    ComputeOffset 2 true (libm := RefMath.ops) (answering [] []) None
                  (flat2 10 10 1) (flat2 10 10 1) stale_optimizer
    = Returned o'
    /\ m_Offsets o' = [[1.5%float; (-2)%float]]
    /\ m_Offsets o' <> [[0%float; 0%float]].
Proof.
  exists stale_optimizer. repeat split.
  intros H. simpl in H.
  apply (f_equal (fun l => PrimFloat.Leibniz.eqb (fat (nth 0 l []) 0) 0)) in H.
  vm_compute in H. discriminate H.
Qed.

(** ** Number of maxima requested *)

(** Whatever the calculator answers, it was asked for [requested_maxima]. *)
Lemma ComputeOffset_requests
    (ImageDimension : nat) (NDEBUG : bool) (libm : CMath)
    (MaxCalculator : MaxCalculatorType) (input fixed moving : ImageType)
    (o : Optimizer) :
  SetN_log (outcome_state
              (ComputeOffset ImageDimension NDEBUG MaxCalculator (Some input)
                             fixed moving o))
  = requested_maxima ImageDimension (m_MergePeaks o) (Z.of_nat (length (m_Offsets o)))
    :: SetN_log o.
Proof.
  unfold ComputeOffset.
  destruct (MaxCalculator _ _) as [maxima indices | ]; [ | reflexivity].
  destruct (negb _); [reflexivity | ].
  destruct (from_maxima _ _ _ _ _ _ _ _) as [offsets confidences]. reflexivity.
Qed.

(** C1 at the failing input.  With merging enabled and one requested offset
    the calculator is asked for 0 maxima in two dimensions (and in three),
    where ceil(1/2) * (3^N - 1) is 8 (and 26); with three requested offsets
    it is asked for 8, where the formula gives 16.  With merging disabled
    the request is the requested count. *)
Theorem requested_maxima_odd_count :
  requested_maxima 2 1 1 = 0 /\ spec_requested_maxima 2 1 = 8
  /\ requested_maxima 3 1 1 = 0 /\ spec_requested_maxima 3 1 = 26
  /\ requested_maxima 2 1 3 = 8 /\ spec_requested_maxima 2 3 = 16
  /\ requested_maxima 2 0 1 = 1.
Proof. vm_compute. repeat split. Qed.

(** ** Bias field *)

Lemma zeroDist2_small (tolerance : Z) :
  0 <= tolerance -> 100 * tolerance * tolerance < 2 ^ 63 ->
  zeroDist2 tolerance = 100 * tolerance * tolerance.
Proof.
  intros H0 H. unfold zeroDist2.
  assert (H1 : 0 <= 100 * tolerance < 2 ^ 64) by nia.
  rewrite (wrapU_small (100 * tolerance)) by exact H1.
  rewrite wrapU_small by nia.
  apply wrapS_small. nia.
Qed.

(** The accumulation of [sample_dist] is an exact sum as long as it stays
    within an [IndexValueType]. *)
Lemma sample_dist_fold (direct mirror ind : IndexType) (l : list nat) (acc : Z) :
  (forall d, In d l ->
     Z.abs (at_ direct d - at_ ind d) <= 2 ^ 20
     /\ Z.abs (at_ mirror d - at_ ind d) <= 2 ^ 20) ->
  0 <= acc -> acc + Z.of_nat (length l) * 2 ^ 40 < 2 ^ 63 ->
  fold_left
    (fun dist d =>
       let distDirect :=
         wrapS (wrapS (at_ direct d - at_ ind d) * wrapS (at_ direct d - at_ ind d)) in
       let distMirror :=
         wrapS (wrapS (at_ mirror d - at_ ind d) * wrapS (at_ mirror d - at_ ind d)) in
       if distDirect <=? distMirror then wrapS (dist + distDirect)
       else wrapS (dist + distMirror))
    l acc
  = acc + axis_sum (closer_dist2 direct mirror ind) l.
Proof.
  revert acc. induction l as [ | d l IH]; intros acc Hb Hacc Hsum.
  - simpl. lia.
  - cbn [fold_left axis_sum].
    destruct (Hb d (or_introl eq_refl)) as [Hd Hm].
    set (a := at_ direct d - at_ ind d) in *.
    set (b := at_ mirror d - at_ ind d) in *.
    assert (Ha2 : 0 <= a * a <= 2 ^ 40) by nia.
    assert (Hb2 : 0 <= b * b <= 2 ^ 40) by nia.
    cbn [length] in Hsum. rewrite Nat2Z.inj_succ in Hsum.
    rewrite (wrapS_small a), (wrapS_small b) by lia.
    rewrite (wrapS_small (a * a)), (wrapS_small (b * b)) by lia.
    assert (Hstep :
      (if a * a <=? b * b then wrapS (acc + a * a) else wrapS (acc + b * b))
      = acc + closer_dist2 direct mirror ind d).
    { unfold closer_dist2. fold a b.
      destruct (Z.leb_spec (a * a) (b * b)).
      - rewrite Z.min_l by lia. apply wrapS_small. lia.
      - rewrite Z.min_r by lia. apply wrapS_small. lia. }
    rewrite Hstep.
    assert (Hc : 0 <= closer_dist2 direct mirror ind d <= 2 ^ 40).
    { unfold closer_dist2. fold a b. lia. }
    rewrite IH.
    + lia.
    + intros d' Hin. apply Hb. now right.
    + lia.
    + lia.
Qed.

Lemma sample_dist_sum (ImageDimension : nat) (direct mirror ind : IndexType) :
  Z.of_nat ImageDimension <= 2 ^ 20 ->
  (forall d, (d < ImageDimension)%nat ->
     Z.abs (at_ direct d - at_ ind d) <= 2 ^ 20
     /\ Z.abs (at_ mirror d - at_ ind d) <= 2 ^ 20) ->
  sample_dist ImageDimension direct mirror ind
  = axis_sum (closer_dist2 direct mirror ind) (seq 0 ImageDimension).
Proof.
  intros Hn Hb. unfold sample_dist, axes.
  rewrite sample_dist_fold.
  - lia.
  - intros d Hin. apply Hb. apply in_seq in Hin. lia.
  - lia.
  - rewrite length_seq. nia.
Qed.

(** C2, as the code has it.  A sample is set to exactly 0 when the tolerance
    is positive and its squared distance exceeds 100 times the squared
    tolerance (ten tolerances, squared); otherwise it is the input sample
    times the exponential, and a further 1000 in a build without [NDEBUG]. *)
Theorem bias_field_hard_zero
    (ImageDimension : nat) (NDEBUG : bool) (libm : CMath) (tolerance : Z)
    (input fixed moving : ImageType) (ind : IndexType) :
  0 <= tolerance -> 100 * tolerance * tolerance < 2 ^ 63 ->
  let direct :=
    directExpectedIndex ImageDimension (GetOrigin moving) (GetOrigin fixed)
                        (GetSpacing fixed) (GetIndex input) in
  let mirror :=
    mirrorExpectedIndex ImageDimension (GetOrigin moving) (GetOrigin fixed)
                        (GetSpacing fixed) (GetSize input) (GetIndex input) in
  let d2 := sample_dist ImageDimension direct mirror ind in
  let factor :=
    distancePenaltyFactor ImageDimension tolerance (GetSize input) (GetIndex input) in
  let damped := (GetPixel input ind * exp (factor * Z2double d2))%float in
  let out := GetPixel (BiasField ImageDimension NDEBUG tolerance input fixed moving) ind in
  (0 < tolerance /\ 100 * tolerance * tolerance < d2 -> out = 0%float)
  /\ (~ (0 < tolerance /\ 100 * tolerance * tolerance < d2) ->
      out = if NDEBUG then damped else (damped * 1000)%float).
Proof.
  intros H0 Hrange direct mirror d2 factor damped out.
  unfold out, BiasField. cbn [GetPixel]. fold direct mirror d2 factor.
  unfold bias_pixel. rewrite (zeroDist2_small tolerance H0 Hrange).
  split.
  - intros [Hpos Hfar].
    apply Z.ltb_lt in Hpos. apply Z.ltb_lt in Hfar.
    rewrite Hpos, Hfar. reflexivity.
  - intros Hnot.
    destruct (Z.ltb_spec 0 tolerance) as [Hpos | Hle];
      destruct (Z.ltb_spec (100 * tolerance * tolerance) d2) as [Hfar | Hnear];
      cbn [andb]; try reflexivity.
    exfalso. apply Hnot. split; assumption.
Qed.

(** Tolerance 1 on a 100 x 100 surface: the sample at (11, 0), squared
    distance 121, is zeroed; the sample at (5, 5), squared distance 50, is
    damped. *)
Lemma bias_field_hard_zero_witness :
  GetPixel (BiasField 2 true (libm := RefMath.ops) 1
                      (flat2 100 100 1) (flat2 100 100 1) (flat2 100 100 1)) [11; 0]
  = 0%float
  /\ GetPixel (BiasField 2 true (libm := RefMath.ops) 1
                         (flat2 100 100 1) (flat2 100 100 1) (flat2 100 100 1)) [5; 5]
     = (1 * RefMath.exp (RefMath.log point_nine / 1 * 50))%float.
Proof.
  split.
  - apply (bias_field_hard_zero 2 true RefMath.ops 1
             (flat2 100 100 1) (flat2 100 100 1) (flat2 100 100 1) [11; 0]);
      [lia | lia | ].
    split; vm_compute; reflexivity.
  - apply (bias_field_hard_zero 2 true RefMath.ops 1
             (flat2 100 100 1) (flat2 100 100 1) (flat2 100 100 1) [5; 5]);
      [lia | lia | ].
    intros [_ H]. vm_compute in H. discriminate H.
Defined.

(** C2, as stated, fails: with tolerance 1 the sample at (5, 5) of a
    100 x 100 surface has squared distance 50, beyond 10 times the squared
    tolerance, and it is not zeroed (it is about 0.005 times the input). *)
Lemma bias_field_not_zero_beyond_ten :
  0 < 1
  /\ 10 * 1 * 1
     < sample_dist 2
         (directExpectedIndex 2 [0; 0]%float [0; 0]%float [1; 1]%float [0; 0])
         (mirrorExpectedIndex 2 [0; 0]%float [0; 0]%float [1; 1]%float [100; 100] [0; 0])
         [5; 5]
  /\ PrimFloat.ltb 0
       (GetPixel (BiasField 2 true (libm := RefMath.ops) 1
                            (flat2 100 100 1) (flat2 100 100 1) (flat2 100 100 1))
                 [5; 5])
     = true
  /\ GetPixel (BiasField 2 true (libm := RefMath.ops) 1
                         (flat2 100 100 1) (flat2 100 100 1) (flat2 100 100 1)) [5; 5]
     <> 0%float.
Proof.
  repeat split; try (vm_compute; reflexivity).
  intros H.
  apply (f_equal (fun v => PrimFloat.ltb 0 v)) in H.
  vm_compute in H. discriminate H.
Qed.

(** C7, as the code has it.  A sample that is not zeroed is the input sample
    times exp(distancePenaltyFactor * d²), and a further 1000 in a build
    without [NDEBUG]; the factor is -10 / (sum of squared grid extents) when
    the tolerance is 0 and ln(0.9) / tolerance² otherwise; d² is the SUM over
    the axes of the squared index distance to the closer of the direct and
    the mirror expected index. *)
Theorem bias_field_damping
    (ImageDimension : nat) (NDEBUG : bool) (libm : CMath) (tolerance : Z)
    (input fixed moving : ImageType) (ind : IndexType) :
  let direct :=
    directExpectedIndex ImageDimension (GetOrigin moving) (GetOrigin fixed)
                        (GetSpacing fixed) (GetIndex input) in
  let mirror :=
    mirrorExpectedIndex ImageDimension (GetOrigin moving) (GetOrigin fixed)
                        (GetSpacing fixed) (GetSize input) (GetIndex input) in
  let d2 := sample_dist ImageDimension direct mirror ind in
  let factor :=
    if tolerance =? 0
    then (-10 / imageSize2 ImageDimension (GetSize input) (GetIndex input))%float
    else (log point_nine / Z2double (wrapU (tolerance * tolerance)))%float in
  let damped := (GetPixel input ind * exp (factor * Z2double d2))%float in
  (0 <? tolerance) && (zeroDist2 tolerance <? d2) = false ->
  Z.of_nat ImageDimension <= 2 ^ 20 ->
  (forall d, (d < ImageDimension)%nat ->
     Z.abs (at_ direct d - at_ ind d) <= 2 ^ 20
     /\ Z.abs (at_ mirror d - at_ ind d) <= 2 ^ 20) ->
  GetPixel (BiasField ImageDimension NDEBUG tolerance input fixed moving) ind
  = (if NDEBUG then damped else (damped * 1000)%float)
  /\ d2 = axis_sum (closer_dist2 direct mirror ind) (seq 0 ImageDimension).
Proof.
  intros direct mirror d2 factor damped Hguard Hn Hb.
  split.
  - unfold BiasField. cbn [GetPixel]. fold direct mirror d2.
    unfold bias_pixel. rewrite Hguard. reflexivity.
  - apply sample_dist_sum; assumption.
Qed.

(** A 10 x 10 surface, tolerance 0: the sample at (1, 2) has d² = 1 + 4 and
    is the input times exp(-10/200 * 5). *)
Lemma bias_field_damping_witness :
  GetPixel (BiasField 2 true (libm := RefMath.ops) 0
                      (flat2 10 10 1) (flat2 10 10 1) (flat2 10 10 1)) [1; 2]
  = (1 * RefMath.exp (-10 / 200 * 5))%float
  /\ sample_dist 2 [0; 0] [10; 10] [1; 2] = 1 + (4 + 0).
Proof.
  apply (bias_field_damping 2 true RefMath.ops 0
           (flat2 10 10 1) (flat2 10 10 1) (flat2 10 10 1) [1; 2]).
  - reflexivity.
  - vm_compute. discriminate.
  - intros d Hd. destruct d as [ | [ | d]]; [vm_compute | vm_compute | lia];
      split; discriminate.
Defined.

(** C7, as stated, fails.  On a 10 x 10 surface with tolerance 0 the sample
    at (1, 2) is not zeroed; the least squared distance over the axes is 1,
    the code accumulates 1 + 4 = 5, and the stored value exp(-0.25) is not
    the input times exp(factor * 1).  In a build without [NDEBUG] the sample
    at the expected index is 1000 times the input, not exp(0) times it. *)
Lemma bias_field_not_axis_minimum :
  spec_axis_min_dist [0; 0] [10; 10] [1; 2] = 1
  /\ sample_dist 2 [0; 0] [10; 10] [1; 2] = 5
  /\ PrimFloat.eqb
       (GetPixel (BiasField 2 true (libm := RefMath.ops) 0
                            (flat2 10 10 1) (flat2 10 10 1) (flat2 10 10 1)) [1; 2])
       (PrimFloat.mul 1
          (RefMath.exp
             (PrimFloat.mul
                (distancePenaltyFactor 2 (libm := RefMath.ops) 0 [10; 10] [0; 0])
                (Z2double (spec_axis_min_dist [0; 0] [10; 10] [1; 2])))))
     = false
  /\ PrimFloat.eqb
       (GetPixel (BiasField 2 false (libm := RefMath.ops) 0
                            (flat2 10 10 1) (flat2 10 10 1) (flat2 10 10 1)) [0; 0])
       (PrimFloat.mul 1
          (RefMath.exp
             (PrimFloat.mul
                (distancePenaltyFactor 2 (libm := RefMath.ops) 0 [10; 10] [0; 0])
                (Z2double 0))))
     = false.
Proof. vm_compute. repeat split. Qed.

(** ** The loops terminate within their fuel *)

Lemma upper_bound_loop_fuel (comp_value : float -> bool) (v : list float)
    (fuel1 fuel2 first len : nat) :
  (len <= fuel1)%nat -> (len <= fuel2)%nat ->
  upper_bound_loop comp_value v fuel1 first len
  = upper_bound_loop comp_value v fuel2 first len.
Proof.
  revert fuel2 first len.
  induction fuel1 as [ | fuel1 IH]; intros fuel2 first len H1 H2.
  - assert (len = 0%nat) by lia. subst len.
    destruct fuel2; reflexivity.
  - destruct len as [ | len'].
    + destruct fuel2; reflexivity.
    + destruct fuel2 as [ | fuel2]; [lia | ].
      cbn [upper_bound_loop Nat.eqb].
      assert (Hhalf : (S len' / 2 < S len')%nat) by (apply Nat.div_lt; lia).
      destruct (comp_value _).
      * apply IH; lia.
      * apply IH; lia.
Qed.

Lemma length_erase {A : Type} (i : nat) (v : list A) :
  (i < length v)%nat -> length (erase i v) = (length v - 1)%nat.
Proof.
  intros H. unfold erase.
  rewrite length_app, length_firstn, length_skipn. lia.
Qed.

(** When [merge_loop] stops, the condition of the [while] is false. *)
Lemma merge_loop_done (ImageDimension : nat) (mergePeaks : Z) (size : SizeType)
    (fuel i : nat) (confidences : list float) (indices : list IndexType) :
  (length indices - i <= fuel)%nat ->
  (length (snd (snd (merge_loop ImageDimension mergePeaks size fuel i
                                confidences indices)))
   <= fst (merge_loop ImageDimension mergePeaks size fuel i confidences indices))%nat.
Proof.
  revert i confidences indices.
  induction fuel as [ | fuel IH]; intros i confidences indices Hfuel.
  - simpl. lia.
  - cbn [merge_loop].
    destruct (Nat.ltb_spec i (length indices)) as [Hi | Hi].
    + destruct (scan_earlier ImageDimension mergePeaks size indices i i 0 <? i)%nat.
      * apply IH. rewrite length_erase by exact Hi. lia.
      * apply IH. lia.
    + simpl. exact Hi.
Qed.

(** ** Number of offsets returned *)

Lemma length_set_at {A : Type} (v : list A) (d : nat) (x : A) :
  length (set_at v d x) = length v.
Proof.
  revert d. induction v as [ | y v IH]; intros d.
  - reflexivity.
  - destruct d; simpl; [reflexivity | now rewrite IH].
Qed.

Lemma length_resize {A : Type} (n : nat) (dflt : A) (v : list A) :
  length (resize n dflt v) = n.
Proof.
  unfold resize. rewrite length_app, length_firstn, repeat_length. lia.
Qed.

Lemma fold_left_invariant {S B : Type} (step : S -> B -> S) (P : S -> Prop) :
  (forall s b, P s -> P (step s b)) ->
  forall l s, P s -> P (fold_left step l s).
Proof.
  intros Hstep l. induction l as [ | b l IH]; intros s Hs; simpl.
  - exact Hs.
  - apply IH, Hstep, Hs.
Qed.

(** The loop over the candidates keeps the two vectors at their lengths. *)
Lemma offsets_loop_length (ImageDimension : nat) (NDEBUG : bool) (libm : CMath)
    (method : PeakInterpolationMethodEnum) (iAdjusted fixed moving : ImageType)
    (indices : list IndexType) (offsets : list OffsetType) (confidences : list float) :
  let r :=
    offsets_loop ImageDimension NDEBUG method iAdjusted fixed moving indices
                 offsets confidences in
  length (fst r) = length offsets /\ length (snd r) = length confidences.
Proof.
  unfold offsets_loop.
  apply (fold_left_invariant _
           (fun s => length (fst s) = length offsets
                     /\ length (snd s) = length confidences)).
  - intros [os cs] m [Ho Hc]. cbn [fst snd] in *. split.
    + rewrite length_set_at. exact Ho.
    + destruct NDEBUG; [rewrite length_set_at | ]; exact Hc.
  - split; reflexivity.
Qed.

(** X6.  As many offsets are returned as were requested or as candidates
    are left after selection and merging, whichever is less, and as many
    confidences. *)
Lemma from_maxima_count (ImageDimension : nat) (NDEBUG : bool) (libm : CMath)
    (o : Optimizer) (iAdjusted fixed moving : ImageType)
    (maxima : list float) (indices : list IndexType) :
  let r := from_maxima ImageDimension NDEBUG o iAdjusted fixed moving maxima indices in
  length (fst r)
  = Nat.min (length (m_Offsets o))
            (length (fst (survivors ImageDimension o (GetSize iAdjusted) maxima indices)))
  /\ length (snd r) = length (fst r).
Proof.
  unfold from_maxima, survivors.
  destruct (select_candidates ImageDimension maxima indices) as [c1 i1]. cbn [fst snd].
  destruct (merge_peaks ImageDimension (m_MergePeaks o) (GetSize iAdjusted) c1 i1)
    as [c2 i2]. cbn [fst].
  unfold truncate_candidates.
  destruct (Nat.ltb_spec (length c2) (length (m_Offsets o))) as [Hlt | Hge].
  - destruct (offsets_loop_length ImageDimension NDEBUG libm
                (m_PeakInterpolationMethod o) iAdjusted fixed moving i2
                (SetOffsetCount ImageDimension (length c2) (m_Offsets o)) c2)
      as [Ho Hc].
    cbv zeta. rewrite Ho, Hc.
    unfold SetOffsetCount. rewrite length_resize. lia.
  - destruct (offsets_loop_length ImageDimension NDEBUG libm
                (m_PeakInterpolationMethod o) iAdjusted fixed moving
                (resize (length (m_Offsets o)) (zeroIndex ImageDimension) i2)
                (m_Offsets o) (resize (length (m_Offsets o)) 0%float c2))
      as [Ho Hc].
    cbv zeta. rewrite Ho, Hc. rewrite length_resize. lia.
Qed.

(** ** Candidate selection *)

(** C3 at the failing input.  The calculator answers with the confidences
    5, 0, -1 (descending).  [std::upper_bound] with [std::greater] finds the
    first value below 0, so the cut keeps 5 and 0, and the call returns a
    confidence that is 0, not strictly positive. *)
Theorem select_candidates_keeps_zero :
  select_candidates 1 [5; 0; -1]%float [[2]; [5]; [7]]
  = ([5; 0]%float, [[2]; [5]])
  /\ exists o',
       ComputeOffset 1 true (libm := RefMath.ops)
                     (answering [5; 0; -1]%float [[2]; [5]; [7]])
                     (Some gentle_surface) gentle_surface gentle_surface
                     (three_plain_offsets)
       = Returned o'
       /\ m_Confidences o' = [5000; 0]%float
       /\ PrimFloat.ltb 0 (fat (m_Confidences o') 1) = false.
Proof.
  split.
  - vm_compute. reflexivity.
  - eexists. split; [vm_compute; reflexivity | ].
    split; vm_compute; reflexivity.
Qed.

(** ** Number of offsets *)

(** C5 at the failing input (the defect is the one of C3).  Two offsets are
    requested and the calculator answers with the confidences 5 and 0; one
    candidate has a positive confidence, min(2, 1) = 1, and two offsets are
    returned. *)
Theorem offset_count_includes_zero_confidence :
  exists o',
    ComputeOffset 1 true (libm := RefMath.ops)
                  (answering [5; 0]%float [[2]; [5]])
                  (Some gentle_surface) gentle_surface gentle_surface
                  two_plain_offsets
    = Returned o'
    /\ length (m_Offsets o') = 2%nat
    /\ length (m_Confidences o') = 2%nat
    /\ count_positive
         (fst (survivors 1 two_plain_offsets [8] [5; 0]%float [[2]; [5]]))
       = 1%nat
    /\ Nat.min 2 1 = 1%nat.
Proof.
  eexists. split; [vm_compute; reflexivity | ].
  repeat split; vm_compute; reflexivity.
Qed.

(** ** Sub-pixel interpolation *)

(** C4 at the failing input.  On the adjusted surface 0 3 5 0 0 0 0 0 the
    calculator returns 5 at index 2 and 3 at index 1; with merge distance 1
    the second peak is joined to the first, whose confidence becomes 8.  The
    interpolator then takes y1 = 8, where the surface holds 5 at index 2
    (y0 = 3 and y2 = 0 are read from the surface): the refined index is
    2 + 3/(2(3 - 16)), not 2 + 3/(2(3 - 10)); the Cosine formula receives
    the same y1 = 8. *)
Theorem interpolation_center_is_merged_confidence :
  survivors 1 two_merging_offsets [8] [5; 3]%float [[2]; [1]] = ([8%float], [[2]])
  /\ GetPixel two_peak_surface [2] = 5%float
  /\ from_maxima 1 true (libm := RefMath.ops) two_merging_offsets
                 two_peak_surface two_peak_surface two_peak_surface
                 [5; 3]%float [[2]; [1]]
     = ([[candidate_offset 0 0 1 (2 + parabolic 3 8 0) 0]], [8000%float])
  /\ PrimFloat.eqb (parabolic 3 8 0) (parabolic 3 5 0) = false
  /\ from_maxima 1 true (libm := RefMath.ops) two_merging_offsets_cosine
                 two_peak_surface two_peak_surface two_peak_surface
                 [5; 3]%float [[2]; [1]]
     = ([[candidate_offset 0 0 1 (2 - cosine (libm := RefMath.ops) 0 3 8 0) 0]],
        [8000%float])
  /\ PrimFloat.eqb (cosine (libm := RefMath.ops) 0 3 8 0)
                   (cosine (libm := RefMath.ops) 0 3 5 0)
     = false.
Proof. repeat split; vm_compute; reflexivity. Qed.

(** An interpolation step never throws: [ComputeOffset] fails only when the
    maxima calculator fails or returns vectors of different lengths. *)
Lemma ComputeOffset_returns (ImageDimension : nat) (NDEBUG : bool) (libm : CMath)
    (MaxCalculator : MaxCalculatorType) (input fixed moving : ImageType)
    (o : Optimizer) (maxima : list float) (indices : list IndexType) :
  MaxCalculator (AdjustedSurface ImageDimension NDEBUG o input fixed moving)
                (requested_maxima ImageDimension (m_MergePeaks o)
                                  (Z.of_nat (length (m_Offsets o))))
  = Maxima maxima indices ->
  length maxima = length indices ->
  exists o',
    ComputeOffset ImageDimension NDEBUG MaxCalculator (Some input) fixed moving o
    = Returned o'.
Proof.
  intros Hcalc Hlen. unfold ComputeOffset. rewrite Hcalc.
  rewrite Hlen, Nat.eqb_refl. cbn [negb].
  destruct (from_maxima _ _ _ _ _ _ _ _) as [offsets confidences].
  eexists. reflexivity.
Qed.

(** C9, as the code has it.  Under Parabolic interpolation the quotient
    (y0 - y2) / (2 (y0 - 2 y1 + y2)) is added to the index on every axis
    whose two neighbours are inside the grid, without a test of the
    denominator; the index is left as it is on an axis with a neighbour
    outside the grid; and the interpolation raises no error: the call
    returns whenever the maxima calculator returned vectors of one length. *)
Theorem parabolic_step_unguarded
    (ImageDimension : nat) (libm : CMath) (m : nat) (y1 : float)
    (iAdjusted : ImageType)
    (maxIndex : ContinuousIndexType) (tempIndex : IndexType) (i : nat) :
  let inside := IsInside ImageDimension (GetIndex iAdjusted) (GetSize iAdjusted) in
  let below := set_at tempIndex i (double2index (fat maxIndex i - 1)%float) in
  let above := set_at below i (double2index (fat maxIndex i + 1)%float) in
  let y0 := GetPixel iAdjusted below in
  let y2 := GetPixel iAdjusted above in
  let next :=
    fst (interpolate_axis ImageDimension PeakInterpolationMethod.Parabolic m y1
                          iAdjusted (maxIndex, tempIndex) i) in
  (inside below = true -> inside above = true ->
   next = set_at maxIndex i
                 (fat maxIndex i + (y0 - y2) / (2 * (y0 - 2 * y1 + y2)))%float)
  /\ (inside below = false \/ inside above = false -> next = maxIndex)
  /\ (forall (NDEBUG : bool) (MaxCalculator : MaxCalculatorType)
             (input fixed moving : ImageType) (o : Optimizer)
             (maxima : list float) (indices : list IndexType),
        MaxCalculator (AdjustedSurface ImageDimension NDEBUG o input fixed moving)
                      (requested_maxima ImageDimension (m_MergePeaks o)
                                        (Z.of_nat (length (m_Offsets o))))
        = Maxima maxima indices ->
        length maxima = length indices ->
        exists o',
          ComputeOffset ImageDimension NDEBUG MaxCalculator (Some input)
                        fixed moving o
          = Returned o').
Proof.
  intros inside below above y0 y2 next.
  split; [ | split].
  - intros Hb Ha. unfold next, interpolate_axis.
    fold inside below. rewrite Hb. cbn [negb]. fold above. rewrite Ha.
    reflexivity.
  - intros Hout. unfold next, interpolate_axis.
    fold inside below.
    destruct (inside below) eqn:Hb; cbn [negb]; [ | reflexivity].
    fold above. destruct Hout as [Hout | Hout]; [discriminate Hout | ].
    rewrite Hout. reflexivity.
  - intros NDEBUG MaxCalculator input fixed moving o maxima indices.
    apply ComputeOffset_returns.
Qed.

(** On the surface 0 3 5 0 0 0 0 0 the peak at index 2 moves by
    (3 - 0) / (2 (3 - 2 y1 + 0)); a peak at index 0 has no neighbour below
    and stays; and the call on that surface returns. *)
Lemma parabolic_step_unguarded_witness :
  fst (interpolate_axis 1 (libm := RefMath.ops) PeakInterpolationMethod.Parabolic 0 5
                        two_peak_surface ([2%float], [2]) 0)
  = [(2 + (3 - 0) / (2 * (3 - 2 * 5 + 0)))%float]
  /\ fst (interpolate_axis 1 (libm := RefMath.ops) PeakInterpolationMethod.Parabolic 0 5
                           two_peak_surface ([0%float], [0]) 0)
     = [0%float]
  /\ exists o',
       ComputeOffset 1 true (libm := RefMath.ops) (answering [5%float] [[2]])
                     (Some two_peak_surface) two_peak_surface two_peak_surface
                     one_parabolic_offset
       = Returned o'.
Proof.
  split; [ | split].
  - apply (parabolic_step_unguarded 1 RefMath.ops 0 5 two_peak_surface
             [2%float] [2] 0); reflexivity.
  - apply (parabolic_step_unguarded 1 RefMath.ops 0 5 two_peak_surface
             [0%float] [0] 0).
    left. reflexivity.
  - destruct (parabolic_step_unguarded 1 RefMath.ops 0 5 two_peak_surface
                [0%float] [0] 0) as (_ & _ & Hreturns).
    apply (Hreturns true (answering [5%float] [[2]])
                    two_peak_surface two_peak_surface two_peak_surface
                    one_parabolic_offset [5%float] [[2]]); reflexivity.
Defined.

(** C9, as stated, fails.  On a plateau (y0 = y1 = y2 = 1) the denominator
    2 (y0 - 2 y1 + y2) is zero; the quotient 0/0 is added all the same, the
    continuous index is NaN instead of the integer index 3, and the offset
    returned is NaN. *)
Lemma parabolic_plateau_gives_nan :
  PrimFloat.eqb (2 * (1 - 2 * 1 + 1)) 0 = true
  /\ is_nan (fat (interpolate_peak 1 (libm := RefMath.ops)
                                   PeakInterpolationMethod.Parabolic 0 1
                                   plateau_surface [3]) 0)
     = true
  /\ interpolate_peak 1 (libm := RefMath.ops) PeakInterpolationMethod.Parabolic 0 1
                      plateau_surface [3]
     <> [Z2double 3]
  /\ is_nan (fat (nth 0 (fst (from_maxima 1 true (libm := RefMath.ops)
                                          one_parabolic_offset plateau_surface
                                          plateau_surface plateau_surface
                                          [1%float] [[3]]))
                      []) 0)
     = true.
Proof.
  repeat split; try (vm_compute; reflexivity).
  intros H.
  apply (f_equal (fun v => is_nan (fat v 0))) in H.
  vm_compute in H. discriminate H.
Qed.

(** ** What the cut of the candidate selector keeps *)

(** On a vector whose elements satisfying [comp(value, e)] all come after
    those that do not, the binary search finds the boundary. *)
Lemma upper_bound_loop_partition (comp_value : float -> bool) (v : list float)
    (n : nat) :
  (forall i, (i < n)%nat -> comp_value (nth i v 0%float) = false) ->
  (forall i, (n <= i)%nat -> (i < length v)%nat ->
             comp_value (nth i v 0%float) = true) ->
  forall fuel first len,
    (len <= fuel)%nat -> (first <= n)%nat -> (n <= first + len)%nat ->
    (first + len <= length v)%nat ->
    upper_bound_loop comp_value v fuel first len = n.
Proof.
  intros Hlow Hhigh fuel.
  induction fuel as [ | fuel IH]; intros first len Hfuel Hfirst Hn Hlen.
  - simpl. lia.
  - cbn [upper_bound_loop].
    destruct (Nat.eqb_spec len 0) as [-> | Hpos]; [lia | ].
    assert (Hhalf : (len / 2 < len)%nat) by (apply Nat.div_lt; lia).
    destruct (comp_value (nth (first + len / 2) v 0%float)) eqn:Hmid.
    + apply IH; try lia.
      destruct (Nat.le_gt_cases n (first + len / 2)) as [Hle | Hgt]; [exact Hle | ].
      rewrite (Hlow _ Hgt) in Hmid. discriminate Hmid.
    + apply IH; try lia.
      destruct (Nat.le_gt_cases n (first + len / 2)) as [Hle | Hgt]; [ | lia].
      rewrite (Hhigh _ Hle) in Hmid by lia. discriminate Hmid.
Qed.

(** X3.  On confidences whose negative values all come last (as in a
    descending vector) and as many indices, the cut keeps every candidate up
    to the first NEGATIVE confidence, with its index: candidates of
    confidence 0 stay. *)
Lemma select_candidates_cut (ImageDimension : nat) (confidences : list float)
    (indices : list IndexType) (n : nat) :
  length confidences = length indices ->
  (n <= length confidences)%nat ->
  (forall i, (i < n)%nat -> PrimFloat.ltb (nth i confidences 0%float) 0 = false) ->
  (forall i, (n <= i)%nat -> (i < length confidences)%nat ->
             PrimFloat.ltb (nth i confidences 0%float) 0 = true) ->
  select_candidates ImageDimension confidences indices
  = (firstn n confidences, firstn n indices).
Proof.
  intros Hlen Hn Hlow Hhigh. unfold select_candidates, upper_bound.
  rewrite (upper_bound_loop_partition compGreater_zero confidences n Hlow Hhigh)
    by lia.
  destruct (Nat.ltb_spec n (length confidences)) as [Hlt | Hge].
  - unfold resize.
    replace (n - length confidences)%nat with 0%nat by lia.
    replace (n - length indices)%nat with 0%nat by lia.
    cbn [repeat]. now rewrite !app_nil_r.
  - assert (n = length confidences) by lia. subst n.
    rewrite firstn_all. rewrite Hlen, firstn_all. reflexivity.
Qed.

(** ** The request, for every count up to 255 *)

(** X4.  With merging enabled the calculator is asked for
    floor(count / 2) * (3^N - 1) maxima, in one, two and three dimensions,
    for every requested count below 256. *)
Lemma requested_maxima_floor (count : Z) :
  0 <= count < 256 ->
  requested_maxima 1 1 count = count / 2 * 2
  /\ requested_maxima 2 1 count = count / 2 * 8
  /\ requested_maxima 3 1 count = count / 2 * 26.
Proof.
  intros Hrange.
  assert (Hall :
    forallb (fun k =>
               let c := Z.of_nat k in
               (requested_maxima 1 1 c =? c / 2 * 2)
               && (requested_maxima 2 1 c =? c / 2 * 8)
               && (requested_maxima 3 1 c =? c / 2 * 26))
            (seq 0 256)
    = true) by (vm_compute; reflexivity).
  rewrite forallb_forall in Hall.
  specialize (Hall (Z.to_nat count)).
  rewrite Z2Nat.id in Hall by lia.
  assert (Hin : In (Z.to_nat count) (seq 0 256)) by (apply in_seq; lia).
  apply Hall in Hin.
  apply andb_prop in Hin. destruct Hin as [Hin H3].
  apply andb_prop in Hin. destruct Hin as [H1 H2].
  apply Z.eqb_eq in H1, H2, H3. auto.
Qed.

(** ** The distance of the zero-shift suppressor *)

Lemma zero_dist_fold (size : SizeType) (oIndex ind : IndexType) (l : list nat)
    (acc : Z) :
  (forall d, In d l ->
     0 <= at_ ind d - at_ oIndex d <= at_ size d /\ at_ size d <= 2 ^ 40) ->
  0 <= acc -> acc + Z.of_nat (length l) * 2 ^ 40 < 2 ^ 63 ->
  fold_left
    (fun dist d =>
       let distD := wrapS (at_ ind d - at_ oIndex d) in
       let distD :=
         if wrapS (at_ size d / 2) <? distD
         then wrapS (wrapU (at_ size d - distD))
         else distD in
       wrapS (dist + distD))
    l acc
  = acc + axis_sum (wrapped_diff size oIndex ind) l.
Proof.
  revert acc. induction l as [ | d l IH]; intros acc Hb Hacc Hsum.
  - simpl. lia.
  - cbn [fold_left axis_sum].
    destruct (Hb d (or_introl eq_refl)) as [Hr Hs].
    cbn [length] in Hsum. rewrite Nat2Z.inj_succ in Hsum.
    set (r := at_ ind d - at_ oIndex d) in *.
    assert (Hhalf : 0 <= at_ size d / 2 <= at_ size d).
    { split; [apply Z.div_pos; lia | apply Z.div_le_upper_bound; lia]. }
    rewrite (wrapS_small r), (wrapS_small (at_ size d / 2)) by lia.
    assert (Hstep :
      (if at_ size d / 2 <? r then wrapS (wrapU (at_ size d - r)) else r)
      = wrapped_diff size oIndex ind d).
    { unfold wrapped_diff. fold r.
      destruct (at_ size d / 2 <? r); [ | reflexivity].
      rewrite wrapU_small by lia. apply wrapS_small. lia. }
    rewrite Hstep.
    assert (Hw : 0 <= wrapped_diff size oIndex ind d <= 2 ^ 40).
    { unfold wrapped_diff. fold r. destruct (at_ size d / 2 <? r); lia. }
    rewrite (wrapS_small (acc + wrapped_diff size oIndex ind d)) by lia.
    rewrite IH.
    + lia.
    + intros d' Hin. apply Hb. now right.
    + lia.
    + lia.
Qed.

(** X5.  For a sample of the grid, the distance of the suppressor is the sum
    over the axes of the wrapped index differences: the difference to the
    start index, or the size minus it when it exceeds half the size. *)
Lemma zero_dist_sum (ImageDimension : nat) (size : SizeType) (oIndex ind : IndexType) :
  Z.of_nat ImageDimension <= 2 ^ 20 ->
  (forall d, (d < ImageDimension)%nat ->
     0 <= at_ ind d - at_ oIndex d <= at_ size d /\ at_ size d <= 2 ^ 40) ->
  zero_dist ImageDimension size oIndex ind
  = axis_sum (wrapped_diff size oIndex ind) (seq 0 ImageDimension).
Proof.
  intros Hn Hb. unfold zero_dist, axes.
  rewrite zero_dist_fold.
  - lia.
  - intros d Hin. apply Hb. apply in_seq in Hin. lia.
  - lia.
  - rewrite length_seq. nia.
Qed.

(** ** More on the comparison of doubles *)

Lemma SFcompare_antisym (x y : spec_float) :
  SFcompare y x = option_map CompOpp (SFcompare x y).
Proof.
  destruct x as [sx | sx | | sx mx ex], y as [sy | sy | | sy my ey];
    try reflexivity;
    try (destruct sx; reflexivity);
    try (destruct sy; reflexivity);
    try (destruct sx, sy; reflexivity).
  simpl. destruct sx, sy; try reflexivity;
    rewrite (Z.compare_antisym ey ex);
    destruct (ey ?= ex) eqn:E; simpl; try reflexivity;
    rewrite (Pos.compare_cont_antisym mx my Eq); simpl;
    try rewrite CompOpp_involutive; reflexivity.
Qed.

(** For two doubles that are not NaN ([x == x]), [!(x <= y)] gives
    [y <= x]. *)
Lemma float_not_leb (x y : float) :
  PrimFloat.eqb x x = true -> PrimFloat.eqb y y = true ->
  PrimFloat.leb x y = false -> PrimFloat.leb y x = true.
Proof.
  rewrite !eqb_spec, !leb_spec. unfold SFeqb, SFleb.
  rewrite (SFcompare_antisym (Prim2SF x) (Prim2SF y)).
  intros Hx Hy.
  assert (Hc : SFcompare (Prim2SF x) (Prim2SF y) <> None).
  { destruct (Prim2SF x) as [sx | sx | | sx mx ex],
             (Prim2SF y) as [sy | sy | | sy my ey];
      cbn in Hx, Hy |- *; try discriminate; try (destruct sx; discriminate);
      try (destruct sy; discriminate). }
  destruct (SFcompare (Prim2SF x) (Prim2SF y)) as [[ | | ] | ]; cbn; congruence.
Qed.

(** ** Offset resolution, continued *)

(** X1.  On every axis the resolver returns one of its two candidates, and
    when neither is NaN the one it returns has the smaller magnitude: its
    absolute value is at most that of the direct and at most that of the
    mirror offset. *)
Theorem resolve_offset_least_magnitude
    (ImageDimension : nat) (fixed moving : ImageType) (size : SizeType)
    (oIndex : IndexType) (maxIndex : ContinuousIndexType) (i : nat) :
  let direct := directOffset fixed moving oIndex maxIndex i in
  let mirror := mirrorOffset ImageDimension fixed moving size oIndex maxIndex i in
  let chosen := fat (resolve_offset ImageDimension fixed moving size oIndex maxIndex) i in
  (i < ImageDimension)%nat ->
  PrimFloat.eqb (abs direct) (abs direct) = true ->
  PrimFloat.eqb (abs mirror) (abs mirror) = true ->
  (chosen = direct \/ chosen = mirror)
  /\ PrimFloat.leb (abs chosen) (abs direct) = true
  /\ PrimFloat.leb (abs chosen) (abs mirror) = true.
Proof.
  intros direct mirror chosen Hi Hd Hm.
  assert (Hchosen : chosen = resolve_axis direct mirror).
  { unfold chosen, fat, resolve_offset, axes.
    rewrite nth_map_seq by exact Hi. reflexivity. }
  rewrite Hchosen. unfold resolve_axis.
  destruct (PrimFloat.leb (abs direct) (abs mirror)) eqn:E.
  - split; [now left | split; [now apply float_eqb_leb | exact E]].
  - split; [now right | split; [ | now apply float_eqb_leb]].
    now apply float_not_leb.
Qed.

(** The peak at index 97 of 100 samples: the direct offset is -97, the
    mirror offset 3, and 3 is returned. *)
Lemma resolve_offset_least_magnitude_witness :
  fat (resolve_offset 1 (surface1 (repeat 0%float 100)) (surface1 (repeat 0%float 100))
                      [100] [0] [97%float]) 0
  = 3%float
  /\ PrimFloat.leb (abs 3) (abs (-97)) = true.
Proof.
  destruct (resolve_offset_least_magnitude 1
              (surface1 (repeat 0%float 100)) (surface1 (repeat 0%float 100))
              [100] [0] [97%float] 0) as (_ & Hd & _).
  - lia.
  - vm_compute. reflexivity.
  - vm_compute. reflexivity.
  - split; [vm_compute; reflexivity | exact Hd].
Defined.

(** ** Sub-pixel interpolation, continued *)

Lemma nth_set_at_other {A : Type} (v : list A) (i j : nat) (x dflt : A) :
  i <> j -> nth j (set_at v i x) dflt = nth j v dflt.
Proof.
  revert i j. induction v as [ | y v IH]; intros i j Hij.
  - destruct i; reflexivity.
  - destruct i, j; simpl; try reflexivity; try contradiction.
    apply IH. congruence.
Qed.

Lemma nth_set_at_same {A : Type} (v : list A) (i : nat) (x dflt : A) :
  (i < length v)%nat -> nth i (set_at v i x) dflt = x.
Proof.
  revert i. induction v as [ | y v IH]; intros i Hi.
  - simpl in Hi. lia.
  - destruct i; simpl; [reflexivity | apply IH; simpl in Hi; lia].
Qed.

(** X2.  Whatever the method and the surface, the pass for axis [i] changes
    no other component of the continuous index, keeps its number of
    components, and hands [tempIndex] on with component [i] set back from
    the (not yet refined) continuous index. *)
Theorem interpolate_axis_local
    (ImageDimension : nat) (libm : CMath) (method : PeakInterpolationMethodEnum)
    (m : nat) (y1 : float) (iAdjusted : ImageType)
    (maxIndex : ContinuousIndexType) (tempIndex : IndexType) (i : nat) :
  let next :=
    interpolate_axis ImageDimension method m y1 iAdjusted (maxIndex, tempIndex) i in
  (forall j, j <> i -> fat (fst next) j = fat maxIndex j)
  /\ length (fst next) = length maxIndex
  /\ snd next = set_at tempIndex i (double2index (fat maxIndex i)).
Proof.
  intros next. unfold next, interpolate_axis.
  destruct (negb (IsInside ImageDimension (GetIndex iAdjusted) (GetSize iAdjusted) _));
    [repeat split | ].
  destruct (negb (IsInside ImageDimension (GetIndex iAdjusted) (GetSize iAdjusted) _));
    [repeat split | ].
  destruct method; cbn [fst snd]; repeat split;
    try (intros j Hj; unfold fat; apply nth_set_at_other; congruence);
    try apply length_set_at.
Qed.

(** ** Witnesses of the facts above *)

(** The confidences 5, 0, -1: the cut is at position 2. *)
Lemma select_candidates_cut_witness :
  select_candidates 1 [5; 0; -1]%float [[2]; [5]; [7]]
  = (firstn 2 [5; 0; -1]%float, firstn 2 [[2]; [5]; [7]]).
Proof.
  apply (select_candidates_cut 1 [5; 0; -1]%float [[2]; [5]; [7]] 2).
  - reflexivity.
  - simpl. lia.
  - intros i Hi. destruct i as [ | [ | i]]; [reflexivity | reflexivity | lia].
  - intros i Hlo Hhi. simpl in Hhi.
    destruct i as [ | [ | [ | i]]]; [lia | lia | reflexivity | lia].
Defined.

(** Five requested offsets: 2 * 2, 2 * 8 and 2 * 26 maxima. *)
Lemma requested_maxima_floor_witness :
  requested_maxima 1 1 5 = 5 / 2 * 2
  /\ requested_maxima 2 1 5 = 5 / 2 * 8
  /\ requested_maxima 3 1 5 = 5 / 2 * 26.
Proof. apply (requested_maxima_floor 5). lia. Defined.

(** The sample (9, 7) of a 10 x 10 grid: distance 1 + 3. *)
Lemma zero_dist_sum_witness :
  zero_dist 2 [10; 10] [0; 0] [9; 7] = 1 + (3 + 0).
Proof.
  apply (zero_dist_sum 2 [10; 10] [0; 0] [9; 7]).
  - vm_compute. discriminate.
  - intros d Hd. destruct d as [ | [ | d]]; [ | | lia]; vm_compute;
      repeat split; discriminate.
Defined.

(** ** Zero-shift suppression, continued *)

Lemma fold_left_invariant_in {S B : Type} (step : S -> B -> S) (P : S -> Prop)
    (l : list B) :
  (forall s b, In b l -> P s -> P (step s b)) ->
  forall s, P s -> P (fold_left step l s).
Proof.
  induction l as [ | b l IH]; intros Hstep s Hs; simpl.
  - exact Hs.
  - apply IH.
    + intros s' b' Hin. apply Hstep. now right.
    + apply Hstep; [now left | exact Hs].
Qed.

Lemma zero_dist_at_start (ImageDimension : nat) (size : SizeType) (oIndex : IndexType) :
  (forall d, (d < ImageDimension)%nat -> 0 <= at_ size d < 2 ^ 64) ->
  zero_dist ImageDimension size oIndex oIndex = 0.
Proof.
  intros Hsize. unfold zero_dist, axes.
  apply (fold_left_invariant_in _ (fun dist => dist = 0)); [ | reflexivity].
  intros dist d Hin ->. apply in_seq in Hin.
  rewrite Z.sub_diag. change (wrapS 0) with 0.
  assert (Hhalf : 0 <= at_ size d / 2 < 2 ^ 63).
  { destruct (Hsize d ltac:(lia)) as [H0 H1]. split.
    - apply Z.div_pos; lia.
    - apply Z.div_lt_upper_bound; lia. }
  rewrite (wrapS_small (at_ size d / 2)) by lia.
  destruct (Z.ltb_spec (at_ size d / 2) 0); [lia | reflexivity].
Qed.

(** X7.  With aggressiveness [a > 0] the zero-shift sample itself, the one
    at the start index of the grid, is always damped, by 10 / (a + 10). *)
Theorem zero_shift_sample_damped
    (ImageDimension : nat) (a : float) (iAdjusted : ImageType) :
  (forall d, (d < ImageDimension)%nat -> 0 <= at_ (GetSize iAdjusted) d < 2 ^ 64) ->
  PrimFloat.ltb 0 a = true ->
  GetPixel (ZeroSuppress ImageDimension a iAdjusted) (GetIndex iAdjusted)
  = (GetPixel iAdjusted (GetIndex iAdjusted) * (10 / (a + 0 + 10)))%float.
Proof.
  intros Hsize Ha. unfold ZeroSuppress. rewrite Ha. cbn [GetPixel].
  unfold suppress_pixel, pixelValid.
  rewrite (zero_dist_at_start ImageDimension _ _ Hsize).
  reflexivity.
Qed.

(** A 10 x 10 surface of value 1, aggressiveness 5: the sample at (0, 0)
    becomes 10/15. *)
Lemma zero_shift_sample_damped_witness :
  GetPixel (ZeroSuppress 2 5 (flat2 10 10 1)) [0; 0] = (1 * (10 / (5 + 0 + 10)))%float.
Proof.
  apply (zero_shift_sample_damped 2 5 (flat2 10 10 1)).
  - intros d Hd. destruct d as [ | [ | d]]; [ | | lia]; vm_compute;
      (split; [discriminate | reflexivity]).
  - reflexivity.
Defined.

(** ** Peak merging *)

Lemma nth_erase_before {A : Type} (i j : nat) (v : list A) (dflt : A) :
  (j < i)%nat -> (i < length v)%nat -> nth j (erase i v) dflt = nth j v dflt.
Proof.
  intros Hj Hi. unfold erase.
  rewrite app_nth1 by (rewrite length_firstn; lia).
  rewrite nth_firstn.
  destruct (Nat.ltb_spec j i); [reflexivity | lia].
Qed.

Lemma incl_erase {A : Type} (i : nat) (v : list A) : incl (erase i v) v.
Proof.
  intros x Hin. unfold erase in Hin. apply in_app_or in Hin.
  rewrite <- (firstn_skipn i v).
  destruct Hin as [Hin | Hin]; apply in_or_app.
  - now left.
  - right. rewrite <- (firstn_skipn 1 (skipn i v)).
    apply in_or_app. right. rewrite skipn_skipn. exact Hin.
Qed.

(** What the inner loop returns: a position not beyond [k + n]; every
    earlier candidate it passed is farther than the merge distance; and if
    it stopped early, the candidate it stopped at is within it. *)
Lemma scan_earlier_spec (ImageDimension : nat) (mergePeaks : Z) (size : SizeType)
    (indices : list IndexType) (i n k : nat) :
  let r := scan_earlier ImageDimension mergePeaks size indices i n k in
  (k <= r <= k + n)%nat
  /\ (forall k', (k <= k')%nat -> (k' < r)%nat ->
        mergePeaks
        < peak_dist ImageDimension size (nth i indices []) (nth k' indices []))
  /\ ((r < k + n)%nat ->
      peak_dist ImageDimension size (nth i indices []) (nth r indices [])
      <= mergePeaks).
Proof.
  revert k. induction n as [ | n IH]; intros k; cbn [scan_earlier].
  - repeat split; lia.
  - destruct (Z.leb_spec
                (peak_dist ImageDimension size (nth i indices []) (nth k indices []))
                mergePeaks) as [Hle | Hgt].
    + repeat split; lia.
    + destruct (IH (S k)) as (Hr & Hfar & Hnear).
      split; [lia | split].
      * intros k' Hlo Hhi.
        destruct (Nat.eq_dec k' k) as [-> | Hne]; [exact Hgt | ].
        apply Hfar; lia.
      * intros Hlt. apply Hnear. lia.
Qed.

Lemma merge_loop_separated (ImageDimension : nat) (mergePeaks : Z) (size : SizeType)
    (fuel i : nat) (confidences : list float) (indices : list IndexType) :
  (length indices - i <= fuel)%nat ->
  separated ImageDimension mergePeaks size indices i ->
  let merged :=
    snd (snd (merge_loop ImageDimension mergePeaks size fuel i confidences indices)) in
  separated ImageDimension mergePeaks size merged (length merged).
Proof.
  revert i confidences indices.
  induction fuel as [ | fuel IH]; intros i confidences indices Hfuel Hsep.
  - cbn. intros j k Hkj _ Hj. apply Hsep; lia.
  - cbn [merge_loop].
    destruct (Nat.ltb_spec i (length indices)) as [Hi | Hi].
    + destruct (scan_earlier_spec ImageDimension mergePeaks size indices i i 0)
        as (Hr & Hfar & _).
      destruct (Nat.ltb_spec
                  (scan_earlier ImageDimension mergePeaks size indices i i 0) i)
        as [Hk | Hk].
      * apply IH.
        -- rewrite length_erase by exact Hi. lia.
        -- intros j k Hkj Hji Hj.
           rewrite !nth_erase_before by lia.
           apply Hsep; lia.
      * apply IH; [lia | ].
        intros j k Hkj Hji Hj.
        destruct (Nat.eq_dec j i) as [-> | Hne].
        -- apply Hfar; lia.
        -- apply Hsep; lia.
    + cbn. intros j k Hkj _ Hj. apply Hsep; lia.
Qed.

(** X8.  When the merge loop ends, every candidate that is left is farther
    than the merge distance (in the wrapped maximum-over-axes distance) from
    every candidate that precedes it. *)
Theorem merge_loop_leaves_separated_peaks
    (ImageDimension : nat) (mergePeaks : Z) (size : SizeType)
    (confidences : list float) (indices : list IndexType) :
  let merged :=
    snd (snd (merge_loop ImageDimension mergePeaks size (length indices) 1
                         confidences indices)) in
  forall j k, (k < j)%nat -> (j < length merged)%nat ->
    mergePeaks < peak_dist ImageDimension size (nth j merged []) (nth k merged []).
Proof.
  intros merged j k Hkj Hj. unfold merged in *.
  apply (merge_loop_separated ImageDimension mergePeaks size (length indices) 1
                              confidences indices).
  - lia.
  - intros j' k' Hk' Hj' _. lia.
  - exact Hkj.
  - exact Hj.
  - exact Hj.
Qed.

Lemma merge_loop_shape (ImageDimension : nat) (mergePeaks : Z) (size : SizeType)
    (fuel i : nat) (confidences : list float) (indices : list IndexType) :
  length confidences = length indices -> (1 <= i)%nat ->
  let r := merge_loop ImageDimension mergePeaks size fuel i confidences indices in
  length (fst (snd r)) = length (snd (snd r))
  /\ (length (snd (snd r)) <= length indices)%nat
  /\ incl (snd (snd r)) indices
  /\ nth 0 (snd (snd r)) [] = nth 0 indices [].
Proof.
  revert i confidences indices.
  induction fuel as [ | fuel IH]; intros i confidences indices Hlen Hi1.
  - cbn. repeat split; [exact Hlen | lia | apply incl_refl].
  - cbn [merge_loop].
    destruct (Nat.ltb_spec i (length indices)) as [Hi | Hi].
    + destruct (scan_earlier ImageDimension mergePeaks size indices i i 0 <? i)%nat.
      * destruct (IH i
                    (erase i (set_at confidences
                                (scan_earlier ImageDimension mergePeaks size
                                              indices i i 0)
                                (fat confidences
                                     (scan_earlier ImageDimension mergePeaks size
                                                   indices i i 0)
                                 + fat confidences i)%float))
                    (erase i indices))
          as (H1 & H2 & H3 & H4).
        -- rewrite !length_erase; rewrite ?length_set_at; lia.
        -- exact Hi1.
        -- cbv zeta. split; [exact H1 | split; [ | split]].
           ++ rewrite length_erase in H2 by exact Hi. lia.
           ++ eapply incl_tran; [exact H3 | apply incl_erase].
           ++ rewrite H4. apply nth_erase_before; lia.
      * apply IH; [exact Hlen | lia].
    + cbn. repeat split; [exact Hlen | lia | apply incl_refl].
Qed.

(** X9.  Given as many confidences as indices, the merge loop leaves as many
    confidences as indices, no more candidates than it was given, only
    indices it was given, and the first candidate where it was. *)
Theorem merge_loop_keeps_shape
    (ImageDimension : nat) (mergePeaks : Z) (size : SizeType)
    (confidences : list float) (indices : list IndexType) :
  length confidences = length indices ->
  let r :=
    merge_loop ImageDimension mergePeaks size (length indices) 1
               confidences indices in
  length (fst (snd r)) = length (snd (snd r))
  /\ (length (snd (snd r)) <= length indices)%nat
  /\ incl (snd (snd r)) indices
  /\ nth 0 (snd (snd r)) [] = nth 0 indices [].
Proof.
  intros Hlen. apply merge_loop_shape; [exact Hlen | lia].
Qed.

(** The peaks 5 at index 2 and 3 at index 1 of eight samples, merge
    distance 1: one candidate is left, at index 2. *)
Lemma merge_loop_keeps_shape_witness :
  length (fst (snd (merge_loop 1 1 [8] 2 1 [5; 3]%float [[2]; [1]])))
  = length (snd (snd (merge_loop 1 1 [8] 2 1 [5; 3]%float [[2]; [1]])))
  /\ Nat.le (length (snd (snd (merge_loop 1 1 [8] 2 1 [5; 3]%float [[2]; [1]])))) 2
  /\ incl (snd (snd (merge_loop 1 1 [8] 2 1 [5; 3]%float [[2]; [1]]))) [[2]; [1]]
  /\ nth 0 (snd (snd (merge_loop 1 1 [8] 2 1 [5; 3]%float [[2]; [1]]))) [] = [2].
Proof.
  exact (merge_loop_keeps_shape 1 1 [8] [5; 3]%float [[2]; [1]] eq_refl).
Defined.

(** Five peaks among eight samples, merge distance 1: the candidates left
    are at 2, 5 and 0, and the second is at distance 3 from the first. *)
Lemma merge_loop_leaves_separated_peaks_witness :
  1 < peak_dist 1 [8]
        (nth 1 (snd (snd (merge_loop 1 1 [8] 5 1 [5; 3; 2; 1.5; 1]%float
                                     [[2]; [5]; [1]; [6]; [0]]))) [])
        (nth 0 (snd (snd (merge_loop 1 1 [8] 5 1 [5; 3; 2; 1.5; 1]%float
                                     [[2]; [5]; [1]; [6]; [0]]))) []).
Proof.
  apply (merge_loop_leaves_separated_peaks 1 1 [8] [5; 3; 2; 1.5; 1]%float
           [[2]; [5]; [1]; [6]; [0]] 1 0).
  - lia.
  - vm_compute. lia.
Defined.

(** ** Re-sorting after the merge *)

Lemma insert_desc_perm (confidences : list float) (a : nat) (l : list nat) :
  Permutation (insert_desc confidences a l) (a :: l).
Proof.
  induction l as [ | b l IH]; cbn [insert_desc].
  - apply Permutation_refl.
  - destruct (PrimFloat.ltb (fat confidences b) (fat confidences a)).
    + apply Permutation_refl.
    + eapply Permutation_trans; [apply perm_skip, IH | apply perm_swap].
Qed.

Lemma sort_desc_perm (confidences : list float) (sIndices : list nat) :
  Permutation (sort_desc confidences sIndices) sIndices.
Proof.
  unfold sort_desc.
  assert (Hgen : forall l acc,
            Permutation
              (fold_left (fun sorted a => insert_desc confidences a sorted) l acc)
              (l ++ acc)).
  { induction l as [ | a l IH]; intros acc; cbn [fold_left app].
    - apply Permutation_refl.
    - eapply Permutation_trans; [apply IH | ].
      eapply Permutation_trans;
        [apply Permutation_app_head, insert_desc_perm | ].
      apply Permutation_sym, Permutation_middle. }
  rewrite <- (app_nil_r sIndices) at 2. apply Hgen.
Qed.

Lemma combine_by_position {A B : Type} (v : list A) (w : list B) (da : A) (db : B) :
  length v = length w ->
  map (fun a => (nth a v da, nth a w db)) (seq 0 (length v)) = combine v w.
Proof.
  revert w. induction v as [ | x v IH]; intros w Hlen.
  - reflexivity.
  - destruct w as [ | y w]; [discriminate Hlen | ].
    cbn [length seq map combine nth]. f_equal.
    rewrite <- seq_shift, map_map. cbn [nth].
    apply IH. simpl in Hlen. congruence.
Qed.

Lemma combine_map_same {A B C : Type} (f : C -> A) (g : C -> B) (l : list C) :
  combine (map f l) (map g l) = map (fun c => (f c, g c)) l.
Proof.
  induction l as [ | c l IH]; [reflexivity | simpl; now rewrite IH].
Qed.

(** X10.  With merging enabled and as many confidences as indices, the
    re-sorting returns the candidates the merge loop left, each confidence
    with its own index: none is lost, doubled or paired with another
    index. *)
Theorem merge_peaks_permutes
    (ImageDimension : nat) (mergePeaks : Z) (size : SizeType)
    (confidences : list float) (indices : list IndexType) :
  0 < mergePeaks -> length confidences = length indices ->
  let merged :=
    snd (merge_loop ImageDimension mergePeaks size (length indices) 1
                    confidences indices) in
  let r := merge_peaks ImageDimension mergePeaks size confidences indices in
  Permutation (combine (fst r) (snd r)) (combine (fst merged) (snd merged)).
Proof.
  intros Hpos Hlen merged r. unfold r, merge_peaks.
  apply Z.ltb_lt in Hpos. rewrite Hpos.
  destruct (merge_loop_shape ImageDimension mergePeaks size (length indices) 1
              confidences indices Hlen (le_n 1)) as (Hshape & _).
  unfold merged.
  destruct (merge_loop ImageDimension mergePeaks size (length indices) 1
                       confidences indices) as [i [c' i']].
  cbn [fst snd] in *.
  rewrite combine_map_same.
  rewrite <- (combine_by_position c' i' 0%float (zeroIndex ImageDimension) Hshape).
  apply Permutation_map, sort_desc_perm.
Qed.

(** Two peaks too far apart to merge, the weaker first: the re-sorting
    swaps them, each with its index. *)
Lemma merge_peaks_permutes_witness :
  Permutation
    (combine (fst (merge_peaks 1 1 [8] [3; 5]%float [[1]; [6]]))
             (snd (merge_peaks 1 1 [8] [3; 5]%float [[1]; [6]])))
    (combine (fst (snd (merge_loop 1 1 [8] 2 1 [3; 5]%float [[1]; [6]])))
             (snd (snd (merge_loop 1 1 [8] 2 1 [3; 5]%float [[1]; [6]])))).
Proof.
  apply (merge_peaks_permutes 1 1 [8] [3; 5]%float [[1]; [6]]).
  - lia.
  - reflexivity.
Defined.

(** ** The loop over the candidates *)

Lemma offsets_loop_from (ImageDimension : nat) (NDEBUG : bool) (libm : CMath)
    (method : PeakInterpolationMethodEnum) (iAdjusted fixed moving : ImageType)
    (indices : list IndexType) (confidences0 : list float) :
  forall (len k : nat) (offsets : list OffsetType) (confidences : list float),
    (k + len = length confidences0)%nat ->
    length offsets = length confidences0 ->
    length confidences = length confidences0 ->
    (forall m, (m < k)%nat ->
       nth m offsets []
       = peak_offset ImageDimension method iAdjusted fixed moving
                     confidences0 indices m
       /\ fat confidences m = rescaled NDEBUG (fat confidences0 m)) ->
    (forall m, (k <= m)%nat -> fat confidences m = fat confidences0 m) ->
    let r :=
      fold_left
        (fun '(offsets, confidences) m =>
           let offset :=
             peak_offset ImageDimension method iAdjusted fixed moving
                         confidences indices m in
           let confidences :=
             if NDEBUG
             then set_at confidences m (fat confidences m * 1000)%float
             else confidences in
           (set_at offsets m offset, confidences))
        (seq k len) (offsets, confidences) in
    forall m, (m < length confidences0)%nat ->
      nth m (fst r) []
      = peak_offset ImageDimension method iAdjusted fixed moving
                    confidences0 indices m
      /\ fat (snd r) m = rescaled NDEBUG (fat confidences0 m).
Proof.
  induction len as [ | len IH]; intros k offsets confidences Hk Ho Hc Hdone Hrest.
  - cbn. intros m Hm. apply Hdone. lia.
  - cbn [seq fold_left].
    apply IH.
    + lia.
    + rewrite length_set_at. exact Ho.
    + destruct NDEBUG; [rewrite length_set_at | ]; exact Hc.
    + intros m Hm. destruct (Nat.eq_dec m k) as [-> | Hne].
      * split.
        -- rewrite nth_set_at_same by lia.
           unfold peak_offset. rewrite (Hrest k (le_n k)). reflexivity.
        -- unfold rescaled. destruct NDEBUG.
           ++ unfold fat at 1. rewrite nth_set_at_same by lia.
              rewrite (Hrest k (le_n k)). reflexivity.
           ++ apply Hrest. lia.
      * destruct (Hdone m ltac:(lia)) as [H1 H2]. split.
        -- rewrite nth_set_at_other by congruence. exact H1.
        -- destruct NDEBUG; [ | exact H2].
           unfold fat at 1. rewrite nth_set_at_other by congruence. exact H2.
    + intros m Hm. destruct NDEBUG; [ | apply Hrest; lia].
      unfold fat at 1. rewrite nth_set_at_other by lia. apply Hrest. lia.
Qed.

(** X11.  In the loop over the candidates, on as many offsets as
    confidences: the offset stored for candidate [m] is computed from the
    confidence the candidate had on entry (the rescaling of earlier
    candidates does not reach it), and the confidence returned for it is
    that confidence times 1000 in a build with [NDEBUG], and that confidence
    itself otherwise. *)
Theorem offsets_loop_per_candidate
    (ImageDimension : nat) (NDEBUG : bool) (libm : CMath)
    (method : PeakInterpolationMethodEnum) (iAdjusted fixed moving : ImageType)
    (indices : list IndexType) (offsets : list OffsetType)
    (confidences : list float) (m : nat) :
  length offsets = length confidences -> (m < length confidences)%nat ->
  let r :=
    offsets_loop ImageDimension NDEBUG method iAdjusted fixed moving indices
                 offsets confidences in
  nth m (fst r) []
  = peak_offset ImageDimension method iAdjusted fixed moving confidences indices m
  /\ fat (snd r) m = rescaled NDEBUG (fat confidences m).
Proof.
  intros Hlen Hm. unfold offsets_loop.
  apply (offsets_loop_from ImageDimension NDEBUG libm method iAdjusted fixed moving
                           indices confidences (length confidences) 0
                           offsets confidences); try reflexivity; try assumption.
  intros m' Hm'. lia.
Qed.

(** Two candidates on the surface 0 3 5 0 0 0 0 0, in a build with
    [NDEBUG]: the second offset is the one of the confidence 3, and the
    second confidence returned is 3000. *)
Lemma offsets_loop_per_candidate_witness :
  nth 1 (fst (offsets_loop 1 true (libm := RefMath.ops)
                           PeakInterpolationMethod.Parabolic
                           two_peak_surface two_peak_surface two_peak_surface
                           [[2]; [1]] [[0%float]; [0%float]] [5; 3]%float)) []
  = peak_offset 1 (libm := RefMath.ops) PeakInterpolationMethod.Parabolic
                two_peak_surface two_peak_surface two_peak_surface
                [5; 3]%float [[2]; [1]] 1
  /\ fat (snd (offsets_loop 1 true (libm := RefMath.ops)
                            PeakInterpolationMethod.Parabolic
                            two_peak_surface two_peak_surface two_peak_surface
                            [[2]; [1]] [[0%float]; [0%float]] [5; 3]%float)) 1
     = (3 * 1000)%float.
Proof.
  apply (offsets_loop_per_candidate 1 true RefMath.ops
           PeakInterpolationMethod.Parabolic
           two_peak_surface two_peak_surface two_peak_surface
           [[2]; [1]] [[0%float]; [0%float]] [5; 3]%float 1).
  - reflexivity.
  - simpl. lia.
Defined.

(** ** The test driver *)

Lemma validate_parameters_fold (VDimension : nat) (t : TestFiles)
    (finalParameters transformParameters : list float) (l : list nat) (pass : bool) :
  fold_left
    (fun pass ii =>
       if exceeds_tolerance VDimension t finalParameters transformParameters ii
       then false
       else pass)
    l pass
  = pass
    && forallb
         (fun ii =>
            negb (exceeds_tolerance VDimension t finalParameters transformParameters ii))
         l.
Proof.
  revert pass. induction l as [ | ii l IH]; intros pass; cbn [fold_left forallb].
  - now rewrite andb_true_r.
  - rewrite IH.
    destruct (exceeds_tolerance VDimension t finalParameters transformParameters ii),
             pass; reflexivity.
Qed.

(** A double that is not equal to itself is NaN. *)
Lemma float_self_unequal_nan (x : float) :
  PrimFloat.eqb x x = false -> Prim2SF x = S754_nan.
Proof.
  rewrite eqb_spec. unfold SFeqb.
  destruct (Prim2SF x) as [s | s | | s m e]; cbn [SFcompare].
  - discriminate.
  - destruct s; discriminate.
  - reflexivity.
  - rewrite Z.compare_refl, Pos.compare_cont_refl.
    destruct s; discriminate.
Qed.

(** No bound is below the distance of a NaN from anything. *)
Lemma float_nan_distance_not_above (bound x actual : float) :
  PrimFloat.eqb x x = false ->
  PrimFloat.ltb bound (abs (x - actual)) = false.
Proof.
  intros Hnan. apply float_self_unequal_nan in Hnan.
  rewrite ltb_spec, abs_spec, sub_spec, Hnan.
  unfold SFltb. cbn.
  destruct (Prim2SF bound); reflexivity.
Qed.

(** X14.  The comparison of the test driver never flags a NaN: a run whose
    parameters are all NaN leaves [pass] as it was, whatever the actual
    parameters and the spacing are. *)
Theorem validate_parameters_passes_nan (VDimension : nat) (t : TestFiles)
    (finalParameters transformParameters : list float) (pass : bool) :
  (forall ii, (ii < length finalParameters)%nat ->
     PrimFloat.eqb (fat finalParameters ii) (fat finalParameters ii) = false
     /\ PrimFloat.eqb (fat transformParameters ii) (fat transformParameters ii)
        = false) ->
  validate_parameters VDimension t finalParameters transformParameters pass = pass.
Proof.
  intros Hnan. unfold validate_parameters. rewrite validate_parameters_fold.
  replace (forallb _ _) with true; [apply andb_true_r | ].
  symmetry. apply forallb_forall. intros ii Hin. apply in_seq in Hin.
  destruct (Hnan ii ltac:(lia)) as [Hf Ht].
  unfold exceeds_tolerance.
  rewrite (float_nan_distance_not_above _ _ _ Hf).
  rewrite (float_nan_distance_not_above _ _ _ Ht).
  reflexivity.
Qed.

(** Two-dimensional parameters (NaN, NaN) against the actual (3, 4). *)
Lemma validate_parameters_passes_nan_witness :
  validate_parameters 2
    (mkTestFiles [0; 0; 3; 4]%float (Some 2) true [1; 1]%float
                 (fun _ => RunParameters [nan; nan] [nan; nan]))
    [nan; nan] [nan; nan] true
  = true.
Proof.
  apply (validate_parameters_passes_nan 2).
  intros ii Hii. destruct ii as [ | [ | ii]]; [ | | simpl in Hii; lia];
    (split; reflexivity).
Defined.

(** ** The candidates keep their shape through the stages *)

Lemma incl_firstn {A : Type} (n : nat) (v : list A) : incl (firstn n v) v.
Proof.
  intros x Hin. rewrite <- (firstn_skipn n v). apply in_or_app. now left.
Qed.

Lemma resize_shrink {A : Type} (n : nat) (dflt : A) (v : list A) :
  (n <= length v)%nat -> resize n dflt v = firstn n v.
Proof.
  intros H. unfold resize.
  replace (n - length v)%nat with 0%nat by lia. apply app_nil_r.
Qed.

Lemma select_candidates_shape (ImageDimension : nat) (confidences : list float)
    (indices : list IndexType) :
  length confidences = length indices ->
  let r := select_candidates ImageDimension confidences indices in
  length (fst r) = length (snd r) /\ incl (snd r) indices.
Proof.
  intros Hlen. unfold select_candidates.
  destruct (Nat.ltb_spec (upper_bound compGreater_zero confidences)
                         (length confidences)) as [Hlt | Hge]; cbn [fst snd].
  - split.
    + now rewrite !length_resize.
    + rewrite resize_shrink by lia. apply incl_firstn.
  - split; [exact Hlen | apply incl_refl].
Qed.

Lemma merge_peaks_shape (ImageDimension : nat) (mergePeaks : Z) (size : SizeType)
    (confidences : list float) (indices : list IndexType) :
  length confidences = length indices ->
  let r := merge_peaks ImageDimension mergePeaks size confidences indices in
  length (fst r) = length (snd r) /\ incl (snd r) indices.
Proof.
  intros Hlen. unfold merge_peaks.
  destruct (0 <? mergePeaks); [ | split; [exact Hlen | apply incl_refl]].
  destruct (merge_loop_shape ImageDimension mergePeaks size (length indices) 1
              confidences indices Hlen (le_n 1)) as (Hshape & _ & Hincl & _).
  destruct (merge_loop ImageDimension mergePeaks size (length indices) 1
                       confidences indices) as [i [c' i']].
  cbn [fst snd] in *. split.
  - now rewrite !length_map.
  - intros x Hin. apply in_map_iff in Hin. destruct Hin as (a & <- & Ha).
    apply (Permutation_in _ (sort_desc_perm c' (seq 0 (length c')))) in Ha.
    apply in_seq in Ha. apply Hincl, nth_In. lia.
Qed.

(** X15.  Given as many maxima as indices, the candidates that selection,
    merging and truncation leave for the loop are as many confidences as
    indices, at most as many as offsets were requested, and every index
    among them is one the maxima calculator returned. *)
Theorem retained_candidates_shape
    (ImageDimension : nat) (o : Optimizer) (size : SizeType)
    (maxima : list float) (indices : list IndexType) :
  length maxima = length indices ->
  let r := retained ImageDimension o size maxima indices in
  length (fst r) = length (snd r)
  /\ (length (fst r) <= length (m_Offsets o))%nat
  /\ incl (snd r) indices.
Proof.
  intros Hlen. unfold retained, survivors.
  destruct (select_candidates_shape ImageDimension maxima indices Hlen)
    as [Hs1 Hs2].
  destruct (select_candidates ImageDimension maxima indices) as [c1 i1].
  cbn [fst snd] in *.
  destruct (merge_peaks_shape ImageDimension (m_MergePeaks o) size c1 i1 Hs1)
    as [Hm1 Hm2].
  destruct (merge_peaks ImageDimension (m_MergePeaks o) size c1 i1) as [c2 i2].
  cbn [fst snd] in *.
  unfold truncate_candidates.
  destruct (Nat.ltb_spec (length c2) (length (m_Offsets o))) as [Hlt | Hge];
    cbn [fst snd].
  - split; [exact Hm1 | split; [lia | ]].
    eapply incl_tran; [exact Hm2 | exact Hs2].
  - split; [now rewrite !length_resize | split].
    + rewrite length_resize. lia.
    + rewrite resize_shrink by lia.
      eapply incl_tran; [apply incl_firstn | ].
      eapply incl_tran; [exact Hm2 | exact Hs2].
Qed.

(** The maxima 5, 3, 0, -1 at the indices 2, 1, 6, 4 of eight samples, merge
    distance 1, two offsets requested. *)
Lemma retained_candidates_shape_witness :
  length (fst (retained 1 two_merging_offsets [8] [5; 3; 0; -1]%float
                        [[2]; [1]; [6]; [4]]))
  = length (snd (retained 1 two_merging_offsets [8] [5; 3; 0; -1]%float
                          [[2]; [1]; [6]; [4]]))
  /\ Nat.le (length (fst (retained 1 two_merging_offsets [8] [5; 3; 0; -1]%float
                                  [[2]; [1]; [6]; [4]])))
            (length (m_Offsets two_merging_offsets))
  /\ incl (snd (retained 1 two_merging_offsets [8] [5; 3; 0; -1]%float
                         [[2]; [1]; [6]; [4]]))
          [[2]; [1]; [6]; [4]].
Proof.
  exact (retained_candidates_shape 1 two_merging_offsets [8] [5; 3; 0; -1]%float
           [[2]; [1]; [6]; [4]] eq_refl).
Defined.

(** [retained] is what [from_maxima] hands to the loop over the
    candidates. *)
Lemma from_maxima_retained (ImageDimension : nat) (NDEBUG : bool) (libm : CMath)
    (o : Optimizer) (iAdjusted fixed moving : ImageType)
    (maxima : list float) (indices : list IndexType) :
  from_maxima ImageDimension NDEBUG o iAdjusted fixed moving maxima indices
  = offsets_loop ImageDimension NDEBUG (m_PeakInterpolationMethod o)
      iAdjusted fixed moving
      (snd (retained ImageDimension o (GetSize iAdjusted) maxima indices))
      (fst (truncate_candidates ImageDimension (m_Offsets o)
              (fst (survivors ImageDimension o (GetSize iAdjusted) maxima indices))
              (snd (survivors ImageDimension o (GetSize iAdjusted) maxima indices))))
      (fst (retained ImageDimension o (GetSize iAdjusted) maxima indices)).
Proof.
  unfold from_maxima, retained, survivors.
  destruct (select_candidates ImageDimension maxima indices) as [c1 i1].
  cbn [fst snd].
  destruct (merge_peaks ImageDimension (m_MergePeaks o) (GetSize iAdjusted) c1 i1)
    as [c2 i2].
  cbn [fst snd].
  destruct (truncate_candidates ImageDimension (m_Offsets o) c2 i2)
    as [offsets [c3 i3]].
  reflexivity.
Qed.

(** ** Zero-shift suppression on the samples of the grid *)

Lemma wrapped_diff_sum_range (size : SizeType) (oIndex ind : IndexType) (l : list nat) :
  (forall d, In d l ->
     0 <= at_ ind d - at_ oIndex d <= at_ size d /\ at_ size d <= 2 ^ 40) ->
  0 <= axis_sum (wrapped_diff size oIndex ind) l <= Z.of_nat (length l) * 2 ^ 40.
Proof.
  induction l as [ | d l IH]; intros Hb.
  - simpl. lia.
  - cbn [axis_sum length]. rewrite Nat2Z.inj_succ.
    destruct (Hb d (or_introl eq_refl)) as [Hr Hs].
    assert (Hw : 0 <= wrapped_diff size oIndex ind d <= 2 ^ 40).
    { unfold wrapped_diff.
      destruct (at_ size d / 2 <? at_ ind d - at_ oIndex d); lia. }
    assert (Hrest := IH (fun d' Hin => Hb d' (or_intror Hin))).
    lia.
Qed.

(** C8, as the code has it.  For a sample of the grid, let [d] be its
    city-block distance to the start index with periodic wrap-around: the
    sum over the axes of the index difference, or of the size minus it where
    it exceeds half the size.  With aggressiveness [a > 0] the samples with
    [d] strictly below 4 (a sample at distance exactly 4 is not among
    them), or with a coordinate equal to that of the start index, are
    multiplied by [(d + 10) / (a + d + 10)]; every other sample is left as
    it was; with [a = 0] the surface is unchanged. *)
Theorem zero_suppression_strict_neighbourhood
    (ImageDimension : nat) (a : float) (iAdjusted : ImageType) (ind : IndexType) :
  Z.of_nat ImageDimension <= 2 ^ 20 ->
  (forall k, (k < ImageDimension)%nat ->
     0 <= at_ ind k - at_ (GetIndex iAdjusted) k <= at_ (GetSize iAdjusted) k
     /\ at_ (GetSize iAdjusted) k <= 2 ^ 40) ->
  let d :=
    axis_sum (wrapped_diff (GetSize iAdjusted) (GetIndex iAdjusted) ind)
             (seq 0 ImageDimension) in
  let near_zero :=
    d < 4 \/ exists k, (k < ImageDimension)%nat /\ at_ ind k = at_ (GetIndex iAdjusted) k in
  (PrimFloat.ltb 0 a = true -> near_zero ->
   GetPixel (ZeroSuppress ImageDimension a iAdjusted) ind
   = (GetPixel iAdjusted ind * (Z2double (d + 10) / (a + Z2double d + 10)))%float)
  /\ (PrimFloat.ltb 0 a = true -> ~ near_zero ->
      GetPixel (ZeroSuppress ImageDimension a iAdjusted) ind = GetPixel iAdjusted ind)
  /\ (a = 0%float -> ZeroSuppress ImageDimension a iAdjusted = iAdjusted).
Proof.
  intros Hn Hb d near_zero.
  assert (Hd : zero_dist ImageDimension (GetSize iAdjusted) (GetIndex iAdjusted) ind = d).
  { unfold zero_dist, axes, d. rewrite zero_dist_fold.
    - lia.
    - intros k Hin. apply Hb. apply in_seq in Hin. lia.
    - lia.
    - rewrite length_seq. nia. }
  assert (Hrange : 0 <= d <= Z.of_nat ImageDimension * 2 ^ 40).
  { assert (H := wrapped_diff_sum_range (GetSize iAdjusted) (GetIndex iAdjusted)
                   ind (seq 0 ImageDimension)).
    rewrite length_seq in H. apply H.
    intros k Hin. apply Hb. apply in_seq in Hin. lia. }
  destruct (zero_suppression_spec ImageDimension a iAdjusted ind)
    as (Hnear & Hfar & Hoff).
  rewrite Hd in Hnear, Hfar.
  rewrite (wrapS_small (d + 10)) in Hnear by nia.
  split; [exact Hnear | split; [exact Hfar | exact Hoff]].
Qed.

(** A 10 x 10 surface of value 1, aggressiveness 5.  The sample at (9, 9)
    is at distance 1 + 1 across the wrap-around and is scaled by 12/17; the
    sample at (2, 2), at distance exactly 4 and off the zero lines, is
    kept; aggressiveness 0 changes nothing. *)
Lemma zero_suppression_strict_neighbourhood_witness :
  GetPixel (ZeroSuppress 2 5 (flat2 10 10 1)) [9; 9]
  = (1 * (Z2double 12 / (5 + Z2double 2 + 10)))%float
  /\ GetPixel (ZeroSuppress 2 5 (flat2 10 10 1)) [2; 2] = 1%float
  /\ ZeroSuppress 2 0 (flat2 10 10 1) = flat2 10 10 1.
Proof.
  assert (Hgrid : forall ind,
            (ind = [9; 9] \/ ind = [2; 2]) ->
            forall k, (k < 2)%nat ->
              0 <= at_ ind k - at_ (GetIndex (flat2 10 10 1)) k
                <= at_ (GetSize (flat2 10 10 1)) k
              /\ at_ (GetSize (flat2 10 10 1)) k <= 2 ^ 40).
  { intros ind [-> | ->] k Hk; destruct k as [ | [ | k]]; try lia;
      vm_compute; repeat split; discriminate. }
  split; [ | split].
  - apply (zero_suppression_strict_neighbourhood 2 5 (flat2 10 10 1) [9; 9]).
    + vm_compute. discriminate.
    + apply Hgrid. now left.
    + reflexivity.
    + left. vm_compute. reflexivity.
  - apply (zero_suppression_strict_neighbourhood 2 5 (flat2 10 10 1) [2; 2]).
    + vm_compute. discriminate.
    + apply Hgrid. now right.
    + reflexivity.
    + intros [H | (k & Hk & H)].
      * vm_compute in H. discriminate H.
      * destruct k as [ | [ | k]]; [discriminate H | discriminate H | lia].
  - apply (zero_suppression_strict_neighbourhood 2 0 (flat2 10 10 1) [2; 2]).
    + vm_compute. discriminate.
    + apply Hgrid. now right.
    + reflexivity.
Defined.

(** C8, as stated, fails when "within the threshold 4" includes the
    distance 4.  The sample at (2, 2) of a 10 x 10 surface is at wrapped
    city-block distance 2 + 2 = 4 from the start index and has no
    coordinate equal to that of the start index; with aggressiveness 5 it
    keeps its value 1 and is not multiplied by 14/19. *)
Lemma zero_suppression_not_at_distance_four :
  axis_sum (wrapped_diff [10; 10] [0; 0] [2; 2]) (seq 0 2) = 4
  /\ zero_dist 2 [10; 10] [0; 0] [2; 2] = 4
  /\ on_zero_line 2 [0; 0] [2; 2] = false
  /\ PrimFloat.ltb 0 5 = true
  /\ GetPixel (ZeroSuppress 2 5 (flat2 10 10 1)) [2; 2] = 1%float
  /\ PrimFloat.eqb (GetPixel (ZeroSuppress 2 5 (flat2 10 10 1)) [2; 2])
                   (1 * (Z2double (4 + 10) / (5 + Z2double 4 + 10)))
     = false.
Proof. repeat split; vm_compute; reflexivity. Qed.
